(** * vinca_core: the card projection and the deck query engine

    A shallow embedding of [vinca_core/card.py] and [vinca_core/cardlist.py].

    Both classes hold a [sqlite3] cursor and talk to the database through SQL
    text.  The embedding keeps the database as an explicit value: the rows of
    the [edits] and [media] tables.  Methods that write take the database and
    return the new one; an object that a method mutates ([Card._dict],
    [Cardlist.filters]) is returned next to the method's result.

    Day counts are Python floats.  The code only compares them and truncates
    them ([int(NOW)]), both of which are exact on the rational a float
    denotes, so they are carried as [Q]. *)

From Stdlib Require Import List String Ascii ZArith QArith Bool Lia Lqa Permutation.
Import ListNotations.
Close Scope Q_scope.
Local Open Scope string_scope.
Local Open Scope Z_scope.

(** ** Python values and exceptions *)

(** The values that cross the boundary between the code and SQLite, and the
    arguments the query engine receives. *)
Inductive value : Type :=
| VNone
| VBool (b : bool)
| VInt (n : Z)
| VFloat (x : Q)
| VStr (s : string)
| VBytes (s : string)
| VJulian (v : value).        (* JulianDate(v) *)

(** The exception classes the two files can raise.  The last two are the
    classes the design document names; no statement of the code constructs
    either. *)
Inductive exn : Type :=
| AssertionError
| KeyError
| NameError
| TypeError
| ValueError
| OperationalError
| ValidationError
| NotFoundError.

Inductive result (A : Type) : Type :=
| Return (a : A)
| Raise (e : exn).
Arguments Return {A} a.
Arguments Raise {A} e.

Definition bind {A B : Type} (m : result A) (k : A -> result B) : result B :=
  match m with
  | Return a => k a
  | Raise e => Raise e
  end.

Notation "x <- m ;; k" := (bind m (fun x => k))
  (at level 61, m at next level, right associativity).

(** [assert c] *)
Definition assert (c : bool) : result unit :=
  if c then Return tt else Raise AssertionError.

(** Python's [x in (a, b, ...)] on a tuple of strings. *)
Definition mem (k : string) (l : list string) : bool :=
  existsb (String.eqb k) l.

(** Truthiness, as used by [if x:], [x or y] and [not x]. *)
Fixpoint truthy (v : value) : bool :=
  match v with
  | VNone => false
  | VBool b => b
  | VInt n => negb (n =? 0)
  | VFloat x => negb (Qeq_bool x (0 # 1))
  | VStr s => negb (s =? "")%string
  | VBytes s => negb (s =? "")%string
  | VJulian v => truthy v
  end.

(** The number a value denotes in a numeric comparison; [bool] is a subclass
    of [int] and a JulianDate is a float. *)
Fixpoint as_num (v : value) : option Q :=
  match v with
  | VBool b => Some (inject_Z (if b then 1 else 0))
  | VInt n => Some (inject_Z n)
  | VFloat x => Some x
  | VJulian v => as_num v
  | _ => None
  end.

Definition Qlt_bool (x y : Q) : bool := negb (Qle_bool y x).

(** [a <= b] between the date values the code compares. *)
Definition py_le (a b : value) : result bool :=
  match as_num a, as_num b with
  | Some x, Some y => Return (Qle_bool x y)
  | _, _ => Raise TypeError
  end.

(** [int(x)] on a float: truncation toward zero. *)
Definition int_of_float (x : Q) : Z := Z.quot (Qnum x) (Zpos (Qden x)).

(** ** Dictionaries

    A Python [dict] keeps insertion order; assigning to an existing key keeps
    the key's position. *)
Definition dict : Type := list (string * value).

Fixpoint dict_get (k : string) (d : dict) : option value :=
  match d with
  | [] => None
  | (k', v) :: d' => if (k =? k')%string then Some v else dict_get k d'
  end.

Fixpoint dict_set (k : string) (v : value) (d : dict) : dict :=
  match d with
  | [] => [(k, v)]
  | (k', v') :: d' =>
      if (k =? k')%string then (k, v) :: d' else (k', v') :: dict_set k v d'
  end.

Definition keys (d : dict) : list string := map fst d.

(** [d.update(e)] *)
Definition dict_update (d e : dict) : dict :=
  fold_left (fun acc kv => dict_set (fst kv) (snd kv) acc) e d.

(** ** What SQLite does with a value *)

(** The storage class of a bound or stored value. *)
Inductive storage : Type :=
| SNull
| SNumeric (x : Q)
| SText (s : string)
| SBlob (s : string).

Fixpoint storage_of (v : value) : storage :=
  match v with
  | VNone => SNull
  | VBool b => SNumeric (inject_Z (if b then 1 else 0))
  | VInt n => SNumeric (inject_Z n)
  | VFloat x => SNumeric x
  | VStr s => SText s
  | VBytes s => SBlob s
  | VJulian v => storage_of v
  end.

Inductive cmp : Type := Lt | Gt | Eq | Ne.

(** Ordering between storage classes: numbers before text before blobs. *)
Definition storage_compare (a b : storage) : option comparison :=
  match a, b with
  | SNull, _ | _, SNull => None
  | SNumeric x, SNumeric y =>
      Some (if Qeq_bool x y then Datatypes.Eq
            else if Qle_bool x y then Datatypes.Lt else Datatypes.Gt)
  | SNumeric _, _ => Some Datatypes.Lt
  | _, SNumeric _ => Some Datatypes.Gt
  | SText s, SText t => Some (String.compare s t)
  | SText _, SBlob _ => Some Datatypes.Lt
  | SBlob _, SText _ => Some Datatypes.Gt
  | SBlob s, SBlob t => Some (String.compare s t)
  end.

(** A comparison is NULL ([None]) as soon as one side is NULL. *)
Definition sql_cmp (op : cmp) (a b : value) : option bool :=
  match storage_compare (storage_of a) (storage_of b) with
  | None => None
  | Some c =>
      Some match op, c with
           | Lt, Datatypes.Lt => true
           | Gt, Datatypes.Gt => true
           | Eq, Datatypes.Eq => true
           | Ne, Datatypes.Eq => false
           | Ne, _ => true
           | _, _ => false
           end
  end.

(** [WHERE col = ?] keeps a row only when the comparison is true. *)
Definition sql_eq (a b : value) : bool :=
  match sql_cmp Eq a b with
  | Some true => true
  | _ => false
  end.

(** What a stored value reads back as: a [bool] is stored as an integer and a
    JulianDate as the float it wraps. *)
Fixpoint bound (v : value) : value :=
  match v with
  | VBool b => VInt (if b then 1 else 0)
  | VJulian v => bound v
  | _ => v
  end.

Definition is_null (v : value) : bool :=
  match storage_of v with
  | SNull => true
  | _ => false
  end.

(** ** The database

    A row of [edits] is kept as the columns its [INSERT] statement names,
    together with the reading of the store's clock at the insertion, which is
    the [date] of a row inserted without one ("override the database's default
    timestamping", [Card._update]).  A row of [media] is an id and a
    content. *)
Record edit : Type := { e_row : dict; e_clock : Q }.

Record database : Type := {
  edits : list edit;
  media : list (Z * value)
}.

(** [INSERT INTO edits (k1, k2, ...) VALUES (?, ?, ...)] *)
Definition insert_edit (row : dict) (clock : Q) (db : database) : database :=
  {| edits := edits db ++ [ {| e_row := map (fun kv => (fst kv, bound (snd kv))) row;
                               e_clock := clock |} ];
     media := media db |}.

Definition edit_column (k : string) (e : edit) : value :=
  match dict_get k (e_row e) with
  | Some v => v
  | None => VNone
  end.

Definition edit_date (e : edit) : Q :=
  match as_num (edit_column "date" e) with
  | Some x => x
  | None => e_clock e
  end.

(** *** The [cards] relation *)

(** The card an edit event belongs to. *)
Definition edit_card_id (e : edit) : option Z :=
  match edit_column "card_id" e with
  | VInt i => Some i
  | _ => None
  end.

Definition of_card (id : Z) (e : edit) : bool :=
  match edit_card_id e with
  | Some i => i =? id
  | None => false
  end.

(** Modelled from the spec: part of the [cards] relation, which the schema
    declares and the Python sources do not.  An edit event references
    attribute [attr] of card [id] when it belongs to the card and carries a
    value for the attribute. *)
Definition references (id : Z) (attr : string) (e : edit) : bool :=
  of_card id e && negb (is_null (edit_column attr e)).

(** Modelled from the spec: part of the [cards] relation, which the schema
    declares and the Python sources do not.  The most recent event among [es]
    that references the attribute, starting from the candidate [best]: the
    greatest timestamp wins, and of two events with one timestamp the one
    appended later ("insertion order is the authoritative tiebreak"). *)
Fixpoint latest_from (best : option edit) (id : Z) (attr : string)
    (es : list edit) : option edit :=
  match es with
  | [] => best
  | e :: es' =>
      let best' :=
        if references id attr e then
          match best with
          | Some b => if Qle_bool (edit_date b) (edit_date e) then Some e else Some b
          | None => Some e
          end
        else best in
      latest_from best' id attr es'
  end.

(** Modelled from the spec: the [cards] relation that [Card.__getitem__] and
    the deck queries select from is declared in the database schema, which is
    not part of the Python sources.  Section 3 and 4.1 of the design document
    fix it: a card's current value for an attribute is the value carried by
    the most recent edit event referencing that attribute and that card id
    (insertion order breaking timestamp ties), or absent (NULL) when there is
    none. *)
Definition queryLatest (es : list edit) (id : Z) (attr : string) : value :=
  match latest_from None id attr es with
  | Some e => edit_column attr e
  | None => VNone
  end.

(** Modelled from the spec: a card id appears in the current-state view as
    soon as one edit event carries it (the placeholder event of card creation
    is enough). *)
Definition in_cards (es : list edit) (id : Z) : bool :=
  existsb (of_card id) es.

(** [SELECT {key} FROM cards WHERE id = ?] followed by [fetchone()]: the
    one-column row, or [None] when the card has no row. *)
Definition select_card_column (es : list edit) (key : string) (id : Z) : option value :=
  if in_cards es id then
    Some (if (key =? "id")%string then VInt id else queryLatest es id key)
  else None.

(** [fetchone()[0]]: subscripting [None] is a [TypeError]. *)
Definition first_column (row : option value) : result value :=
  match row with
  | Some v => Return v
  | None => Raise TypeError
  end.

(** *** The [media] relation *)

(** [SELECT id FROM media WHERE content = ?] followed by [fetchone()]. *)
Definition media_find (content : value) (m : list (Z * value)) : option Z :=
  option_map fst (find (fun r => sql_eq (snd r) content) m).

(** Modelled from the spec: the [media] table is declared in the schema, not
    in the Python sources.  The code inserts the content alone and reads the
    id back, so the store assigns the id; it is one the table does not use
    yet (SQLite takes the successor of the largest id). *)
Definition next_media_id (m : list (Z * value)) : Z :=
  1 + fold_right Z.max 0 (map fst m).

(** [SELECT content FROM media WHERE id = ?] followed by [fetchone()]. *)
Definition media_content (media_id : value) (m : list (Z * value)) : option value :=
  option_map snd (find (fun r => sql_eq (VInt (fst r)) media_id) m).

(** ** [card.py] *)
Module Card.

Definition _misc_fields : list string := ["card_type"; "visibility"].
Definition _date_fields : list string :=
  ["create_date"; "due_date"; "last_edit_date"; "last_review_date"].
Definition _text_fields : list string :=
  ["front_text"; "back_text"; "extra"; "hint"; "source"; "spelltest"].
Definition _media_id_fields : list string :=
  ["front_image_id"; "back_image_id"; "front_audio_id"; "back_audio_id";
   "diagram_id"; "diagram_data_id"].
Definition _time_fields : list string :=
  ["edit_seconds"; "review_seconds"; "total_seconds"].

Definition _id_fields : list string := ["id"] ++ _media_id_fields.
Definition _int_fields : list string := _id_fields ++ _time_fields.
Definition _str_fields : list string := _misc_fields ++ _text_fields.
Definition _concrete_fields : list string := _date_fields ++ _int_fields ++ _str_fields.

Definition _virtual_media_fields : list string :=
  ["front_image"; "back_image"; "front_audio"; "back_audio"; "diagram"; "diagram_data"].
Definition _fields : list string := _concrete_fields ++ _virtual_media_fields.

Definition _editable_fields : list string :=
  ["front_image_id"; "back_image_id"; "front_audio_id"; "back_audio_id";
   "diagram_id"; "diagram_data_id";
   "front_text"; "back_text"; "source"; "extra"; "hint"; "spelltest";
   "card_type"; "visibility"; "due_date"].

(** A card handle: its id and the session cache [_dict].  The cursor it also
    holds is the database passed to each method.  [id] is the entry
    [_dict['id']]; it is written once by [__init__] and no method assigns to
    it again, so it is kept as a field of its own as well. *)
Record card : Type := { id : Z; _dict : dict }.

(** [Card(card_id, cursor)]: the state the two assignments of [__init__] set
    up, [_dict = dict(id=int(card_id))].  They are taken as plain attribute
    stores.  (The class also sets [__setattr__ = __setitem__], whose second
    assertion does not list [_dict] or [_cursor]; the methods below are
    studied on the state [__init__] is written to establish.) *)
Definition __init__ (card_id : Z) : card :=
  {| id := card_id; _dict := [("id", VInt card_id)] |}.

Definition set_dict (self : card) (d : dict) : card :=
  {| id := id self; _dict := d |}.

(** Modelled from the spec: class [JulianDate] lives in
    [vinca_core/julianday.py], which is not among the sources.  A date-valued
    attribute is returned "as a date type wrapping the raw stored value". *)
Definition JulianDate (v : value) : value := VJulian v.

(** [_upload_media(cursor, content)]: the id, and the database after the
    call. *)
Definition _upload_media (content : value) (db : database) : Z * database :=
  match media_find content (media db) with
  | Some media_id => (media_id, db)
  | None =>
      let media_id := next_media_id (media db) in
      (media_id,
       {| edits := edits db; media := media db ++ [(media_id, bound content)] |})
  end.

(** [_get_media(cursor, media_id)] *)
Definition _get_media (media_id : value) (db : database) : value :=
  match media_content media_id (media db) with
  | None => VNone
  | Some content => content
  end.

(** [_get_virtual_media_field(key)]: the two queries run (and can fail), but
    the function has no [return] statement, so a call that does not raise
    evaluates to [None]. *)
Definition _get_virtual_media_field (self : card) (key : string) (db : database)
    : result value :=
  let key_id := key ++ "_id" in
  media_id <- first_column (select_card_column (edits db) key_id (id self)) ;;
  value <- (if negb (truthy media_id) then Return VNone
            else first_column (media_content media_id (media db))) ;;
  Return VNone.

(** [self[key]]: the value, or the exception, and the handle afterwards. *)
Definition __getitem__ (self : card) (key : string) (db : database)
    : result value * card :=
  if negb (mem key _fields) then (Raise KeyError, self)
  else
    match dict_get key (_dict self) with
    | Some v => (Return v, self)
    | None =>
        let loaded :=
          if mem key _virtual_media_fields
          then _get_virtual_media_field self key db
          else first_column (select_card_column (edits db) key (id self)) in
        match loaded with
        | Raise e => (Raise e, self)
        | Return value =>
            let value := if mem key _date_fields then JulianDate value else value in
            (Return value, set_dict self (dict_set key value (_dict self)))
        end
    end.

(** [_update(d, date, seconds)], run when the store's clock reads [clock].
    The defaults are [date = None] and [seconds = 0].  The method also adds
    the three bookkeeping keys to the caller's [d]; only the handle and the
    database are returned here. *)
Definition _update (self : card) (d : dict) (date seconds : value) (clock : Q)
    (db : database) : result unit * card * database :=
  match assert (forallb (fun k => mem k _editable_fields) (keys d)) with
  | Raise e => (Raise e, self, db)
  | Return _ =>
      match keys d with
      | [] => (Return tt, self, db)
      | _ =>
          let d := if truthy date then dict_set "date" date d else d in
          let d := if truthy seconds then dict_set "seconds" seconds d else d in
          let d := dict_set "card_id" (VInt (id self)) d in
          (Return tt,
           set_dict self (dict_update (_dict self) d),
           insert_edit d clock db)
      end
  end.

(** [is_due], where [today] is the value that [today()] returns. *)
Definition is_due (today : value) (self : card) (db : database)
    : result bool * card :=
  let (due_date, self') := __getitem__ self "due_date" db in
  (v <- due_date ;; py_le v today, self').

(** [_change_visibility(visibility, date)].  The module imports
    [JulianDate] and [today] from [vinca_core.julianday] but not the module
    itself, so evaluating [julianday.now()] (reached when [date] is falsy) is
    a [NameError]. *)
Definition _change_visibility (self : card) (visibility : string) (date : value)
    (clock : Q) (db : database) : result unit * database :=
  match assert (mem visibility ["deleted"; "visible"; "purged"]) with
  | Raise e => (Raise e, db)
  | Return _ =>
      if truthy date then
        (Return tt,
         insert_edit [("card_id", VInt (id self)); ("visibility", VStr visibility);
                      ("date", date)] clock db)
      else (Raise NameError, db)
  end.

Definition _delete := fun self => _change_visibility self "deleted".
Definition _restore := fun self => _change_visibility self "visible".
Definition _purge := fun self => _change_visibility self "purged".

(** [_exists()], also [bool(card)]: whether [cards] has a row for the id. *)
Definition _exists (self : card) (db : database) : bool :=
  in_cards (edits db) (id self).

(** [INSERT INTO edits (...)] where [columns] lists the columns of the [edits]
    table, which the schema declares: naming another column is an
    [OperationalError]. *)
Definition insert_edit_checked (columns : list string) (row : dict) (clock : Q)
    (db : database) : result unit * database :=
  if forallb (fun k => mem k columns) (keys row)
  then (Return tt, insert_edit row clock db)
  else (Raise OperationalError, db).

(** [_set_virtual_media_field(key, value)]: the content goes to the media
    store and its id into the column [key_id] of a new edit event. *)
Definition _set_virtual_media_field (columns : list string) (self : card)
    (key : string) (content : value) (clock : Q) (db : database)
    : result unit * database :=
  let (media_id, db) := _upload_media content db in
  let field := key ++ "_id" in
  insert_edit_checked columns [("card_id", VInt (id self)); (field, VInt media_id)]
    clock db.

(** [self[key] = v], also [self.key = v].  The cache is written before the
    database. *)
Definition __setitem__ (columns : list string) (self : card) (key : string)
    (v : value) (clock : Q) (db : database) : result unit * card * database :=
  match assert (negb (key =? "id")%string) with
  | Raise e => (Raise e, self, db)
  | Return _ =>
      match assert (mem key _fields) with
      | Raise e => (Raise e, self, db)
      | Return _ =>
          let self := set_dict self (dict_set key v (_dict self)) in
          let (r, db) :=
            if mem key _virtual_media_fields
            then _set_virtual_media_field columns self key v clock db
            else insert_edit_checked columns
                   [("card_id", VInt (id self)); (key, v)] clock db in
          (r, self, db)
      end
  end.

End Card.

(** ** Calendar dates

    [datetime.date.fromisoformat] and date subtraction, after CPython's
    [datetime] module: a date is its proleptic Gregorian ordinal. *)
Module Datetime.

Definition _is_leap (year : Z) : bool :=
  (year mod 4 =? 0) && (negb (year mod 100 =? 0) || (year mod 400 =? 0)).

Definition _days_before_year (year : Z) : Z :=
  let y := year - 1 in
  y * 365 + y / 4 - y / 100 + y / 400.

Definition _DAYS_IN_MONTH (month : Z) : Z :=
  match month with
  | 2 => 28
  | 4 | 6 | 9 | 11 => 30
  | _ => 31
  end.

Definition _days_in_month (year month : Z) : Z :=
  if (month =? 2) && _is_leap year then 29 else _DAYS_IN_MONTH month.

Definition _DAYS_BEFORE_MONTH (month : Z) : Z :=
  match month with
  | 1 => 0 | 2 => 31 | 3 => 59 | 4 => 90 | 5 => 120 | 6 => 151
  | 7 => 181 | 8 => 212 | 9 => 243 | 10 => 273 | 11 => 304 | _ => 334
  end.

Definition _days_before_month (year month : Z) : Z :=
  _DAYS_BEFORE_MONTH month + (if (2 <? month) && _is_leap year then 1 else 0).

Definition _ymd2ord (year month day : Z) : Z :=
  _days_before_year year + _days_before_month year month + day.

(** The fields a [date] accepts: [MINYEAR = 1], [MAXYEAR = 9999]. *)
Definition valid_date (year month day : Z) : bool :=
  (1 <=? year) && (year <=? 9999) && (1 <=? month) && (month <=? 12)
  && (1 <=? day) && (day <=? _days_in_month year month).

Definition digit (c : ascii) : option Z :=
  let n := Z.of_N (N_of_ascii c) in
  if (48 <=? n) && (n <=? 57) then Some (n - 48) else None.

Definition hyphen (c : ascii) : bool := (c =? "-")%char.

(** [fullmatch('[0-9]{4}-[0-9]{2}-[0-9]{2}', s)], with the three numbers the
    match spells. *)
Definition iso_fields (s : string) : option (Z * Z * Z) :=
  match list_ascii_of_string s with
  | [y1; y2; y3; y4; h1; m1; m2; h2; d1; d2] =>
      match digit y1, digit y2, digit y3, digit y4,
            digit m1, digit m2, digit d1, digit d2 with
      | Some a, Some b, Some c, Some d, Some e, Some f, Some g, Some h =>
          if hyphen h1 && hyphen h2
          then Some (1000 * a + 100 * b + 10 * c + d, 10 * e + f, 10 * g + h)
          else None
      | _, _, _, _, _, _, _, _ => None
      end
  | _ => None
  end.

(** [(date(y, m, d) - date.fromisoformat('1970-01-01')).days] *)
Definition days_since_epoch (year month day : Z) : Z :=
  _ymd2ord year month day - _ymd2ord 1970 1 1.

End Datetime.

(** ** [cardlist.py] *)
Module Cardlist.

(** *** The SQL text a view carries

    A condition is kept as its syntax tree; every constructor stands for one
    of the fragments the code writes. *)
Inductive operand : Type :=
| Col (name : string)            (* a column of the row *)
| Lit (v : value)                (* a literal written by the code, or an interpolated number *)
| Quoted (v : value).            (* "{v}": the text of v between quotes *)

Inductive sql : Type :=
| Cmp (a : operand) (op : cmp) (b : operand)   (* a < b, a > b, a = b, a != b *)
| IsNotNull (name : string)                    (* name IS NOT NULL *)
| Like (name : string) (needle : value)        (* name LIKE '%{needle}%' *)
| HasTag (tag : value)
    (* (SELECT count(1) FROM tags WHERE card_id=cards.id AND tag='{tag}') *)
| TagsIn (tags : list string)
    (* (SELECT count(1) FROM tags WHERE card_id=cards.id AND tag in ("t1", "t2") ) *)
| TagsNotIn (tags : list string)
    (* (SELECT count(1) FROM tags WHERE card_id=cards.id AND NOT tag in ("t1", "t2") ) *)
| Or (a b : sql)                               (* (a OR b) *)
| Not (a : sql).                               (* NOT a *)

(** The keyword arguments of [filter]. *)
Record filter_args : Type := {
  search : value;
  require_parameters : bool;
  tag : value;
  tags_yes : option (list string);
  tags_no : option (list string);
  created_after : value;
  created_before : value;
  due_after : value;
  due_before : value;
  deleted : value;
  due : value;
  new : value;
  card_type : value;
  images : value;
  audio : value;
  invert : bool
}.

(** The defaults of the signature: every predicate [None],
    [require_parameters=True], [invert=False]. *)
Definition defaults : filter_args :=
  {| search := VNone; require_parameters := true; tag := VNone;
     tags_yes := None; tags_no := None;
     created_after := VNone; created_before := VNone;
     due_after := VNone; due_before := VNone;
     deleted := VNone; due := VNone; new := VNone; card_type := VNone;
     images := VNone; audio := VNone; invert := false |}.

(** A view.  [filters] is a dictionary that [filter] updates with its
    [locals()]: it is empty ([None]) until the first call and holds the
    arguments of the latest call afterwards (its entry for [self] is left
    out). *)
Record cardlist : Type := {
  _conditions : list sql;
  _ORDER_BY : string;
  deck : string;
  filters : option filter_args
}.

Definition default_conditions : list sql :=
  [Cmp (Col "visibility") Ne (Lit (VStr "purged"))].    (* visibility != "purged" *)

Definition default_ORDER_BY : string :=
  " ORDER BY max(last_edit_date, last_review_date) DESC".

(** [Cardlist(cursor, conditions, ORDER_BY, deck)]; [deck or 'cards']. *)
Definition __init__ (conditions : list sql) (ORDER_BY : string)
    (deck : option string) : cardlist :=
  {| _conditions := conditions;
     _ORDER_BY := ORDER_BY;
     deck := match deck with
             | Some name => if (name =? "")%string then "cards" else name
             | None => "cards"
             end;
     filters := None |}.

Definition _copy (self : cardlist) : cardlist :=
  __init__ (_conditions self) (_ORDER_BY self) None.

(** [SELECT id FROM {deck} WHERE c1 AND c2 ... ORDER BY ...] *)
Record select : Type := { FROM : string; WHERE : list sql; ORDER_BY : string }.

Definition _SELECT_IDS (self : cardlist) : select :=
  {| FROM := deck self; WHERE := _conditions self; ORDER_BY := _ORDER_BY self |}.

(** *** [filter] *)

(** What [filter] or [sort] returns: a new view, or a text that tells the
    user what to supply. *)
Inductive outcome : Type :=
| View (v : cardlist)
| Usage (text : string).

Definition filter_usage : string :=
"Examples:
filter --due                    ` due cards                  
filter --due-before -7            overdue by more than a week
filter --contains-images          cards containing images                           
filter --tag TAG --invert         cards not containing TAG   

Read `filter --help` for a complete list of predicates".

(** One iteration of the loop over [cleaned_dates]. *)
Definition clean_date (TODAY : Z) (v : value) : result value :=
  match v with
  | VNone => Return v
  | VInt n => Return (VInt (TODAY + n))
  | VStr s =>
      if (s =? "")%string then Return v
      else match Datetime.iso_fields s with
           | Some (y, m, d) =>
               if Datetime.valid_date y m d
               then Return (VInt (Datetime.days_since_epoch y m d))
               else Raise ValueError       (* raised by fromisoformat *)
           | None => Raise ValueError
           end
  | _ => Raise ValueError
  end.

(** The first component of an entry of [parameters_conditions]. *)
Inductive param : Type :=
| PVal (v : value)
| PTags (l : option (list string)).

(** [p is None] *)
Definition is_None (p : param) : bool :=
  match p with
  | PVal VNone | PTags None => true
  | _ => false
  end.

(** [parameter is not None and parameter != 'any' and parameter != ''] *)
Definition supplied (p : param) : bool :=
  match p with
  | PVal VNone | PTags None => false
  | PVal (VStr s) => negb (s =? "any")%string && negb (s =? "")%string
  | _ => true
  end.

(** [parameter is False] *)
Definition is_False (p : param) : bool :=
  match p with
  | PVal (VBool false) => true
  | _ => false
  end.

Definition set_filters (self : cardlist) (a : filter_args) : cardlist :=
  {| _conditions := _conditions self; _ORDER_BY := _ORDER_BY self;
     deck := deck self; filters := Some a |}.

(** [new_cardlist._conditions.append(c)] *)
Definition append_condition (v : cardlist) (c : sql) : cardlist :=
  {| _conditions := _conditions v ++ [c]; _ORDER_BY := _ORDER_BY v;
     deck := deck v; filters := filters v |}.

(** The body of the final loop of [filter]. *)
Definition add_condition (invert : bool) (new_cardlist : cardlist)
    (pc : param * sql) : cardlist :=
  let (parameter, condition) := pc in
  if supplied parameter then
    append_condition new_cardlist
      (if xorb invert (is_False parameter) then Not condition else condition)
  else new_cardlist.

Definition opt_list (l : option (list string)) : list string :=
  match l with
  | Some x => x
  | None => []
  end.

(** The tuple [parameters_conditions], given the cleaned dates. *)
Definition parameters_conditions (NOW : Q) (a : filter_args)
    (c_after c_before d_after d_before : value) : list (param * sql) :=
  [ (PVal (search a), Or (Like "front_text" (search a)) (Like "back_text" (search a)));
    (PVal (tag a), HasTag (tag a));
    (PTags (tags_yes a), TagsIn (opt_list (tags_yes a)));
    (PTags (tags_no a), TagsNotIn (opt_list (tags_no a)));
    (PVal c_after, Cmp (Col "create_date") Gt (Lit c_after));
    (PVal c_before, Cmp (Col "create_date") Lt (Lit c_before));
    (PVal d_after, Cmp (Col "due_date") Gt (Lit d_after));
    (PVal d_before, Cmp (Col "due_date") Lt (Lit d_before));
    (PVal (due a), Cmp (Col "due_date") Lt (Lit (VFloat NOW)));
    (PVal (deleted a), Cmp (Col "visibility") Eq (Lit (VStr "deleted")));
    (PVal (card_type a), Cmp (Col "card_type") Eq (Quoted (card_type a)));
    (PVal (new a), Cmp (Col "due_date") Eq (Col "create_date"));
    (PVal (images a), Or (IsNotNull "front_image_id") (IsNotNull "back_image_id"));
    (PVal (audio a), Or (IsNotNull "front_audio_id") (IsNotNull "back_audio_id")) ].

(** [self.filter(...)] with keyword arguments [a], called when [julianday.now()] reads [NOW]: the
    caller's view after the call, and what the call returns or raises. *)
Definition filter (NOW : Q) (a : filter_args) (self : cardlist)
    : cardlist * result outcome :=
  let self := set_filters self a in          (* self.filters.update(locals()) *)
  let TODAY := int_of_float NOW in
  (self,
   c_after <- clean_date TODAY (created_after a) ;;
   c_before <- clean_date TODAY (created_before a) ;;
   d_after <- clean_date TODAY (due_after a) ;;
   d_before <- clean_date TODAY (due_before a) ;;
   let pcs := parameters_conditions NOW a c_after c_before d_after d_before in
   if require_parameters a && forallb (fun pc => is_None (fst pc)) pcs
   then Return (Usage filter_usage)
   else Return (View (fold_left (add_condition (invert a)) pcs (_copy self)))).

(** *** [sort] *)

Definition crit_dict : list (string * string) :=
  [ ("overdue", " ORDER BY due_date");
    ("old", " ORDER BY create_date");
    ("random", " ORDER BY RANDOM()");
    ("time", " ORDER BY (edit_seconds + review_seconds)");
    ("total time", " ORDER BY (edit_seconds + review_seconds)");
    ("recent", " ORDER BY max(last_review_date, last_edit_date)") ].

(** [crit_dict[criterion]], when [criterion in crit_dict]; only a string can
    equal one of the keys. *)
Definition crit_lookup (criterion : value) : option string :=
  match criterion with
  | VStr s => option_map snd (find (fun kv => (s =? fst kv)%string) crit_dict)
  | _ => None
  end.

Definition sort_usage : string :=
  "supply a criterion: " ++ String.concat " | " (map fst crit_dict).

(** [self.sort(criterion, reverse=reverse)]; the defaults are [None] and
    [False].  The caller's view is not written to. *)
Definition sort (criterion : value) (reverse : bool) (self : cardlist) : outcome :=
  match crit_lookup criterion with
  | None => Usage sort_usage
  | Some order =>
      let new_cardlist := _copy self in
      let reverse :=
        xorb reverse
          match criterion with
          | VStr s => mem s ["recent"; "time"; "total time"]
          | _ => false
          end in
      let direction := if reverse then " DESC" else " ASC" in
      View {| _conditions := _conditions new_cardlist;
              _ORDER_BY := order ++ direction;
              deck := deck new_cardlist;
              filters := filters new_cardlist |}
  end.

(** *** Running a query *)

(** A row of [cards], or of a deck: the card id and the other columns. *)
Record row : Type := { row_id : Z; row_col : string -> value }.

Definition column (r : row) (name : string) : value :=
  if (name =? "id")%string then VInt (row_id r) else row_col r name.

(** Modelled from the spec: the row the [cards] relation (declared in the
    schema, not in the Python sources) holds for a card: each attribute is
    resolved to the value of the most recent edit event referencing it. *)
Definition cards_row (es : list edit) (id : Z) : row :=
  {| row_id := id; row_col := queryLatest es id |}.

Definition card_ids (es : list edit) : list Z :=
  nodup Z.eq_dec
    (flat_map (fun e => match edit_card_id e with Some i => [i] | None => [] end) es).

(** Modelled from the spec: the [cards] relation has one row for each card id
    that an edit event carries. *)
Definition cards_view (es : list edit) : list row :=
  map (cards_row es) (card_ids es).

(** SQL's three-valued connectives; [None] is NULL. *)
Definition sql_and (a b : option bool) : option bool :=
  match a, b with
  | Some false, _ | _, Some false => Some false
  | Some true, Some true => Some true
  | _, _ => None
  end.

Definition sql_or (a b : option bool) : option bool :=
  match a, b with
  | Some true, _ | _, Some true => Some true
  | Some false, Some false => Some false
  | _, _ => None
  end.

Definition sql_not (a : option bool) : option bool := option_map negb a.

(** [fetchone()] on the rows a query returned. *)
Definition fetchone {A : Type} (rows : list A) : option A := hd_error rows.

(** [LIMIT l OFFSET o]: a negative offset counts as zero and a negative limit
    as no limit. *)
Definition limit_offset {A : Type} (limit offset : Z) (rows : list A) : list A :=
  let rest := skipn (Z.to_nat offset) rows in
  if limit <? 0 then rest else firstn (Z.to_nat limit) rest.

(** What [__getitem__] accepts between the brackets: an [int], a slice (of
    which only [stop] is read, here an [int] or [None]), or anything else. *)
Inductive subscript : Type :=
| Index (n : Z)
| Slice (stop : option Z)
| Other.

Section Engine.

(** What the code leaves to Python and to SQLite. *)
Variable str : value -> string.
  (* str(v), as an f-string writes v *)
Variable like : string -> value -> option bool.
  (* like pattern x: the value of  x LIKE 'pattern' *)
Variable tags : list (Z * string).
  (* the rows (card_id, tag) of the tags relation *)
Variable decks : string -> option (row -> bool).
  (* the named decks of the database *)
Variable order_rows : string -> list row -> list row.
  (* the rows in the order an ORDER BY clause puts them *)

Definition operand_value (r : row) (o : operand) : value :=
  match o with
  | Col name => column r name
  | Lit v => v
  | Quoted v => VStr (str v)
  end.

Definition count_tags (r : row) (p : string -> bool) : option bool :=
  Some (existsb (fun t => (fst t =? row_id r) && p (snd t)) tags).

(** The truth value of a condition on a row. *)
Fixpoint eval (r : row) (c : sql) : option bool :=
  match c with
  | Cmp a op b => sql_cmp op (operand_value r a) (operand_value r b)
  | IsNotNull name => Some (negb (is_null (column r name)))
  | Like name needle => like ("%" ++ str needle ++ "%") (column r name)
  | HasTag t => count_tags r (String.eqb (str t))
  | TagsIn l => count_tags r (fun t => mem t l)
  | TagsNotIn l => count_tags r (fun t => negb (mem t l))
  | Or a b => sql_or (eval r a) (eval r b)
  | Not a => sql_not (eval r a)
  end.

(** [' AND '.join(conditions)] on a row. *)
Definition eval_all (conditions : list sql) (r : row) : option bool :=
  fold_right (fun c acc => sql_and (eval r c) acc) (Some true) conditions.

(** A [WHERE] clause keeps the rows on which it is true. *)
Definition keeps (conditions : list sql) (r : row) : bool :=
  match eval_all conditions r with
  | Some true => true
  | _ => false
  end.

(** Modelled from the spec: the relation a name denotes.  [cards] is the
    current-state view; a deck is "a name plus a persisted predicate set
    defining a sub-collection of cards". *)
Definition relation (db : database) (name : string) : option (list row) :=
  if (name =? "cards")%string then Some (cards_view (edits db))
  else option_map (fun p => List.filter p (cards_view (edits db))) (decks name).

(** The rows of [FROM name WHERE conditions].  With no condition the text
    [' WHERE ' + ''] is not SQL, and a name may denote nothing. *)
Definition matching (db : database) (name : string) (conditions : list sql)
    : result (list row) :=
  match conditions with
  | [] => Raise OperationalError
  | _ =>
      match relation db name with
      | None => Raise OperationalError
      | Some rows => Return (List.filter (keeps conditions) rows)
      end
  end.

(** [cursor.execute(q)] for a [SELECT id] query [q]: the ids, in order. *)
Definition execute (db : database) (q : select) : result (list Z) :=
  rows <- matching db (FROM q) (WHERE q) ;;
  Return (map row_id (order_rows (ORDER_BY q) rows)).


(** [self[arg]] *)
Definition __getitem__ (self : cardlist) (arg : subscript) (db : database)
    : result Card.card :=
  idx <- match arg with
         | Slice (Some stop) => Return stop
         | Slice None => Raise TypeError         (* None - 1 *)
         | Index n => Return n
         | Other => Raise ValueError
         end ;;
  ids <- execute db (_SELECT_IDS self) ;;
  match fetchone (limit_offset 1 (idx - 1) ids) with
  | Some card_id => Return (Card.__init__ card_id)
  | None => Raise TypeError                      (* fetchone()[0] on None *)
  end.

(** [len(self)] *)
Definition __len__ (self : cardlist) (db : database) : result Z :=
  rows <- matching db (deck self) (_conditions self) ;;
  Return (Z.of_nat (List.length rows)).

(** [_change_visibility(visibility, date)], called when
    [julianday.now()] reads [NOW] and the store's clock reads [clock]: the
    row count, and the database afterwards. *)
Definition _change_visibility (self : cardlist) (visibility : string)
    (date : value) (NOW clock : Q) (db : database) : result Z * database :=
  match assert (mem visibility ["visible"; "deleted"; "purged"]) with
  | Raise e => (Raise e, db)
  | Return _ =>
      let date := if truthy date then date else VFloat NOW in
      let selected :=
        match _conditions self with
        | [] => Raise OperationalError       (* ' WHERE ' + '' + ' AND ...' *)
        | conditions =>
            matching db (deck self)
              (conditions ++ [Cmp (Col "visibility") Ne (Lit (VStr visibility))])
        end in
      match selected with
      | Raise e => (Raise e, db)
      | Return rows =>
          (Return (Z.of_nat (List.length rows)),
           fold_left
             (fun db r =>
                insert_edit [("card_id", VInt (row_id r));
                             ("visibility", VStr visibility);
                             ("date", date)] clock db)
             rows db)
      end
  end.


End Engine.

End Cardlist.

(** * Properties *)

Local Open Scope list_scope.

(** ** Derived notions used in the statements *)

(** The conditions one call of [filter] appends: for each entry of
    [parameters_conditions] whose parameter is supplied, its condition,
    negated when [invert] and [parameter is False] differ. *)
Definition appended (invert : bool) (pcs : list (Cardlist.param * Cardlist.sql))
    : list Cardlist.sql :=
  flat_map
    (fun pc =>
       if Cardlist.supplied (fst pc)
       then [if xorb invert (Cardlist.is_False (fst pc))
             then Cardlist.Not (snd pc) else snd pc]
       else [])
    pcs.

(** What a call of [filter] contributes, independently of the view it is
    called on: an exception, the usage text ([None]), or new conditions. *)
Definition contribution (NOW : Q) (a : Cardlist.filter_args)
    : result (option (list Cardlist.sql)) :=
  let TODAY := int_of_float NOW in
  c_after <- Cardlist.clean_date TODAY (Cardlist.created_after a) ;;
  c_before <- Cardlist.clean_date TODAY (Cardlist.created_before a) ;;
  d_after <- Cardlist.clean_date TODAY (Cardlist.due_after a) ;;
  d_before <- Cardlist.clean_date TODAY (Cardlist.due_before a) ;;
  let pcs := Cardlist.parameters_conditions NOW a c_after c_before d_after d_before in
  if Cardlist.require_parameters a
     && forallb (fun pc => Cardlist.is_None (fst pc)) pcs
  then Return None
  else Return (Some (appended (Cardlist.invert a) pcs)).

(** The view [filter] builds from [self] and new conditions [cs]. *)
Definition extended (self : Cardlist.cardlist) (cs : list Cardlist.sql)
    : Cardlist.cardlist :=
  {| Cardlist._conditions := Cardlist._conditions self ++ cs;
     Cardlist._ORDER_BY := Cardlist._ORDER_BY self;
     Cardlist.deck := "cards";
     Cardlist.filters := None |}.

(** [filter(require_parameters=r, invert=i)]: no predicate parameter is
    passed. *)
Definition no_predicates (r i : bool) : Cardlist.filter_args :=
  {| Cardlist.search := VNone; Cardlist.require_parameters := r;
     Cardlist.tag := VNone; Cardlist.tags_yes := None; Cardlist.tags_no := None;
     Cardlist.created_after := VNone; Cardlist.created_before := VNone;
     Cardlist.due_after := VNone; Cardlist.due_before := VNone;
     Cardlist.deleted := VNone; Cardlist.due := VNone; Cardlist.new := VNone;
     Cardlist.card_type := VNone; Cardlist.images := VNone;
     Cardlist.audio := VNone; Cardlist.invert := i |}.

(** [filter(due=v)] *)
Definition due_only (v : value) : Cardlist.filter_args :=
  {| Cardlist.search := VNone; Cardlist.require_parameters := true;
     Cardlist.tag := VNone; Cardlist.tags_yes := None; Cardlist.tags_no := None;
     Cardlist.created_after := VNone; Cardlist.created_before := VNone;
     Cardlist.due_after := VNone; Cardlist.due_before := VNone;
     Cardlist.deleted := VNone; Cardlist.due := v; Cardlist.new := VNone;
     Cardlist.card_type := VNone; Cardlist.images := VNone;
     Cardlist.audio := VNone; Cardlist.invert := false |}.


(** The value [__getitem__] hands out for a stored value: a date attribute
    is wrapped. *)
Definition as_read (key : string) (v : value) : value :=
  if mem key Card._date_fields then Card.JulianDate v else v.

(** Whether a condition is true on a row. *)
Definition holds str like tags (r : Cardlist.row) (c : Cardlist.sql) : bool :=
  match Cardlist.eval str like tags r c with
  | Some true => true
  | _ => false
  end.

(** [due_date < {NOW}] *)
Definition due_now (NOW : Q) : Cardlist.sql :=
  Cardlist.Cmp (Cardlist.Col "due_date") Lt (Cardlist.Lit (VFloat NOW)).

(** [filter(due_before=v)] *)
Definition due_before_only (v : value) : Cardlist.filter_args :=
  {| Cardlist.search := VNone; Cardlist.require_parameters := true;
     Cardlist.tag := VNone; Cardlist.tags_yes := None; Cardlist.tags_no := None;
     Cardlist.created_after := VNone; Cardlist.created_before := VNone;
     Cardlist.due_after := VNone; Cardlist.due_before := v;
     Cardlist.deleted := VNone; Cardlist.due := VNone; Cardlist.new := VNone;
     Cardlist.card_type := VNone; Cardlist.images := VNone;
     Cardlist.audio := VNone; Cardlist.invert := false |}.

(** [{col} > {z}] or [{col} < {z}], for a day number [z]. *)
Definition date_condition (col : string) (op : cmp) (z : Z) : Cardlist.sql :=
  Cardlist.Cmp (Cardlist.Col col) op (Cardlist.Lit (VInt z)).


(** Equality under SQLite's comparison, on storage classes. *)
Definition same (a b : storage) : Prop :=
  match a, b with
  | SNumeric x, SNumeric y => Qeq x y
  | SText s, SText t => s = t
  | SBlob s, SBlob t => s = t
  | _, _ => False
  end.

(** ** Derived notions for the further properties *)

(** [db'] holds every row of [db], in place, possibly followed by new ones. *)
Definition extends (db db' : database) : Prop :=
  (exists added, edits db' = edits db ++ added)
  /\ (exists added, media db' = media db ++ added).

(** [filter(name=v)] for one of the scalar keyword arguments, the others
    as in [a]. *)
Definition set_param (name : string) (v : value) (a : Cardlist.filter_args)
    : Cardlist.filter_args :=
  let pick := fun k old => if (name =? k)%string then v else old in
  {| Cardlist.search := pick "search" (Cardlist.search a);
     Cardlist.require_parameters := Cardlist.require_parameters a;
     Cardlist.tag := pick "tag" (Cardlist.tag a);
     Cardlist.tags_yes := Cardlist.tags_yes a;
     Cardlist.tags_no := Cardlist.tags_no a;
     Cardlist.created_after := pick "created_after" (Cardlist.created_after a);
     Cardlist.created_before := pick "created_before" (Cardlist.created_before a);
     Cardlist.due_after := pick "due_after" (Cardlist.due_after a);
     Cardlist.due_before := pick "due_before" (Cardlist.due_before a);
     Cardlist.deleted := pick "deleted" (Cardlist.deleted a);
     Cardlist.due := pick "due" (Cardlist.due a);
     Cardlist.new := pick "new" (Cardlist.new a);
     Cardlist.card_type := pick "card_type" (Cardlist.card_type a);
     Cardlist.images := pick "images" (Cardlist.images a);
     Cardlist.audio := pick "audio" (Cardlist.audio a);
     Cardlist.invert := Cardlist.invert a |}.

Definition set_invert (i : bool) (a : Cardlist.filter_args) : Cardlist.filter_args :=
  {| Cardlist.search := Cardlist.search a;
     Cardlist.require_parameters := Cardlist.require_parameters a;
     Cardlist.tag := Cardlist.tag a;
     Cardlist.tags_yes := Cardlist.tags_yes a;
     Cardlist.tags_no := Cardlist.tags_no a;
     Cardlist.created_after := Cardlist.created_after a;
     Cardlist.created_before := Cardlist.created_before a;
     Cardlist.due_after := Cardlist.due_after a;
     Cardlist.due_before := Cardlist.due_before a;
     Cardlist.deleted := Cardlist.deleted a;
     Cardlist.due := Cardlist.due a;
     Cardlist.new := Cardlist.new a;
     Cardlist.card_type := Cardlist.card_type a;
     Cardlist.images := Cardlist.images a;
     Cardlist.audio := Cardlist.audio a;
     Cardlist.invert := i |}.


(** The keyword arguments of [filter] that take a scalar and no date. *)
Definition scalar_names : list string :=
  ["search"; "tag"; "deleted"; "due"; "new"; "card_type"; "images"; "audio"].

Definition date_names : list string :=
  ["created_after"; "created_before"; "due_after"; "due_before"].

(** The flags of [filter] and the condition each one stands for. *)
Definition flag_condition (NOW : Q) (name : string) : option Cardlist.sql :=
  if (name =? "due")%string then Some (due_now NOW)
  else if (name =? "deleted")%string then
    Some (Cardlist.Cmp (Cardlist.Col "visibility") Eq (Cardlist.Lit (VStr "deleted")))
  else if (name =? "new")%string then
    Some (Cardlist.Cmp (Cardlist.Col "due_date") Eq (Cardlist.Col "create_date"))
  else if (name =? "images")%string then
    Some (Cardlist.Or (Cardlist.IsNotNull "front_image_id")
            (Cardlist.IsNotNull "back_image_id"))
  else if (name =? "audio")%string then
    Some (Cardlist.Or (Cardlist.IsNotNull "front_audio_id")
            (Cardlist.IsNotNull "back_audio_id"))
  else None.

(** The date arguments the loop over [cleaned_dates] accepts. *)
Definition parseable (v : value) : bool :=
  match v with
  | VNone | VInt _ => true
  | VStr s =>
      (s =? "")%string
      || match Datetime.iso_fields s with
         | Some (y, m, d) => Datetime.valid_date y m d
         | None => false
         end
  | _ => false
  end.

(** Calendar order. *)
Definition date_before (a b : Z * Z * Z) : Prop :=
  let '(y, m, d) := a in
  let '(y', m', d') := b in
  y < y' \/ (y = y' /\ (m < m' \/ (m = m' /\ d < d'))).

(** [visibility != "{visibility}"], the condition the bulk
    [_change_visibility] adds to the view's. *)
Definition visibility_differs (visibility : string) : Cardlist.sql :=
  Cardlist.Cmp (Cardlist.Col "visibility") Ne (Cardlist.Lit (VStr visibility)).

(** The edit event the bulk [_change_visibility] inserts for a row. *)
Definition visibility_event (visibility : string) (date : value) (clock : Q)
    (r : Cardlist.row) : edit :=
  {| e_row := [("card_id", VInt (Cardlist.row_id r));
               ("visibility", VStr visibility);
               ("date", bound date)];
     e_clock := clock |}.

(** ** The shape of [filter]'s result *)

Lemma fold_add_condition (invert : bool) (pcs : list (Cardlist.param * Cardlist.sql)) :
  forall v,
    fold_left (Cardlist.add_condition invert) pcs v
    = {| Cardlist._conditions := Cardlist._conditions v ++ appended invert pcs;
         Cardlist._ORDER_BY := Cardlist._ORDER_BY v;
         Cardlist.deck := Cardlist.deck v;
         Cardlist.filters := Cardlist.filters v |}.
Proof.
  induction pcs as [|[p c] pcs IH]; intros v; simpl.
  - rewrite app_nil_r. now destruct v.
  - rewrite IH. unfold Cardlist.add_condition, Cardlist.append_condition.
    destruct (Cardlist.supplied p); simpl.
    + now rewrite <- app_assoc.
    + reflexivity.
Qed.

Lemma filter_unfold (NOW : Q) (a : Cardlist.filter_args) (self : Cardlist.cardlist) :
  Cardlist.filter NOW a self
  = (Cardlist.set_filters self a,
     r <- contribution NOW a ;;
     Return match r with
            | None => Cardlist.Usage Cardlist.filter_usage
            | Some cs => Cardlist.View (extended self cs)
            end).
Proof.
  unfold Cardlist.filter, contribution. f_equal.
  destruct (Cardlist.clean_date _ (Cardlist.created_after a)); [|reflexivity].
  destruct (Cardlist.clean_date _ (Cardlist.created_before a)); [|reflexivity].
  destruct (Cardlist.clean_date _ (Cardlist.due_after a)); [|reflexivity].
  destruct (Cardlist.clean_date _ (Cardlist.due_before a)); [|reflexivity].
  cbn [bind].
  match goal with |- context [if ?b then _ else _] => destruct b end;
    cbn [bind]; [reflexivity|].
  now rewrite fold_add_condition.
Qed.

Lemma filter_view (NOW : Q) (a : Cardlist.filter_args) (self v : Cardlist.cardlist) :
  snd (Cardlist.filter NOW a self) = Return (Cardlist.View v) ->
  exists cs, contribution NOW a = Return (Some cs) /\ v = extended self cs.
Proof.
  rewrite filter_unfold. cbn [snd].
  destruct (contribution NOW a) as [[cs|]|e]; cbn [bind]; intros H;
    try discriminate.
  injection H as <-. now exists cs.
Qed.

Lemma filter_of_contribution (NOW : Q) (a : Cardlist.filter_args)
    (self : Cardlist.cardlist) (cs : list Cardlist.sql) :
  contribution NOW a = Return (Some cs) ->
  snd (Cardlist.filter NOW a self) = Return (Cardlist.View (extended self cs)).
Proof.
  intros H. rewrite filter_unfold. cbn [snd]. now rewrite H.
Qed.

(** ** The row set of a conjunction does not depend on the order of the
    conjuncts *)

Section Conjunction.

Variable str : value -> string.
Variable like : string -> value -> option bool.
Variable tags : list (Z * string).

Lemma keeps_forallb (conditions : list Cardlist.sql) (r : Cardlist.row) :
  Cardlist.keeps str like tags conditions r = forallb (holds str like tags r) conditions.
Proof.
  unfold Cardlist.keeps, Cardlist.eval_all, holds.
  induction conditions as [|c cs IH]; simpl; [reflexivity|].
  rewrite <- IH.
  destruct (Cardlist.eval str like tags r c) as [[|]|];
    destruct (fold_right _ _ cs) as [[|]|]; reflexivity.
Qed.

Lemma keeps_app (cs ds : list Cardlist.sql) (r : Cardlist.row) :
  Cardlist.keeps str like tags (cs ++ ds) r
  = Cardlist.keeps str like tags cs r && Cardlist.keeps str like tags ds r.
Proof. rewrite !keeps_forallb. apply forallb_app. Qed.


End Conjunction.


(** ** Copy-on-write composition of filters *)




(** ** Usage guidance *)

(** C6.  With every predicate parameter left at [None] and
    [require_parameters] true (the default), [filter] returns the usage text:
    it neither raises nor builds a view.  [sort] with a criterion that is not
    a key of the criterion table returns its usage text. *)
Theorem usage_guidance (NOW : Q) (invert reverse : bool) (criterion : value)
    (self : Cardlist.cardlist) :
  (forall s, criterion = VStr s -> ~ In s (map fst Cardlist.crit_dict)) ->
  snd (Cardlist.filter NOW (no_predicates true invert) self)
  = Return (Cardlist.Usage Cardlist.filter_usage)
  /\ Cardlist.sort criterion reverse self = Cardlist.Usage Cardlist.sort_usage.
Proof.
  intros H. split; [reflexivity|].
  unfold Cardlist.sort.
  assert (L : Cardlist.crit_lookup criterion = None).
  { destruct criterion; try reflexivity. unfold Cardlist.crit_lookup.
    destruct (find _ Cardlist.crit_dict) as [kv|] eqn:F; [|reflexivity].
    apply find_some in F as [I E]. apply String.eqb_eq in E. subst s.
    exfalso. apply (H (fst kv) eq_refl). now apply in_map. }
  now rewrite L.
Qed.

Lemma usage_guidance_witness :
  snd (Cardlist.filter (100 # 1) (no_predicates true false)
         (Cardlist.__init__ Cardlist.default_conditions Cardlist.default_ORDER_BY None))
  = Return (Cardlist.Usage Cardlist.filter_usage)
  /\ Cardlist.sort (VStr "newest") false
       (Cardlist.__init__ Cardlist.default_conditions Cardlist.default_ORDER_BY None)
     = Cardlist.Usage Cardlist.sort_usage.
Proof.
  apply usage_guidance.
  intros s E. injection E as <-.
  intros [F|[F|[F|[F|[F|[F|[]]]]]]]; discriminate F.
Defined.

(** ** The deck of a copy *)



(** ** The media store *)

Lemma storage_of_bound (v : value) : storage_of (bound v) = storage_of v.
Proof. induction v; simpl; auto. Qed.

Lemma string_compare_refl (s : string) : String.compare s s = Datatypes.Eq.
Proof.
  pose proof (String.compare_antisym s s) as H.
  destruct (String.compare s s); simpl in H; congruence.
Qed.

Lemma sql_eq_same (a b : value) :
  sql_eq a b = true <-> same (storage_of a) (storage_of b).
Proof.
  unfold sql_eq, sql_cmp.
  destruct (storage_of a) as [|x|s|s], (storage_of b) as [|y|t|t]; simpl;
    try (split; [discriminate|contradiction]).
  - destruct (Qeq_bool x y) eqn:E.
    + split; [intros _; now apply Qeq_bool_iff|reflexivity].
    + split.
      * destruct (Qle_bool x y); discriminate.
      * intros H. apply Qeq_bool_iff in H. congruence.
  - destruct (String.compare s t) eqn:E.
    + split; [intros _; now apply String.compare_eq_iff|reflexivity].
    + split; [discriminate|]. intros ->. now rewrite string_compare_refl in E.
    + split; [discriminate|]. intros ->. now rewrite string_compare_refl in E.
  - destruct (String.compare s t) eqn:E.
    + split; [intros _; now apply String.compare_eq_iff|reflexivity].
    + split; [discriminate|]. intros ->. now rewrite string_compare_refl in E.
    + split; [discriminate|]. intros ->. now rewrite string_compare_refl in E.
Qed.

Lemma same_refl (a : storage) : a <> SNull -> same a a.
Proof. destruct a; simpl; intros H; try reflexivity. now elim H. Qed.



Lemma sql_eq_bound_refl (c : value) : is_null c = false -> sql_eq (bound c) c = true.
Proof.
  intros H. apply sql_eq_same. rewrite storage_of_bound. apply same_refl.
  unfold is_null in H. intros E. now rewrite E in H.
Qed.

Lemma media_find_Some (c : value) (m : list (Z * value)) (i : Z) :
  media_find c m = Some i -> exists x, In (i, x) m /\ sql_eq x c = true.
Proof.
  unfold media_find. destruct (find _ m) as [[j x]|] eqn:F; [|discriminate].
  intros [= <-]. apply find_some in F. now exists x.
Qed.




Lemma next_media_id_above (m : list (Z * value)) (i : Z) :
  In i (map fst m) -> i < next_media_id m.
Proof.
  unfold next_media_id. induction m as [|r m IH]; cbn [map fold_right In];
    [contradiction|].
  intros [<-|H]; [lia|]. specialize (IH H). lia.
Qed.

Lemma next_media_id_fresh (m : list (Z * value)) : ~ In (next_media_id m) (map fst m).
Proof. intros H. apply next_media_id_above in H. lia. Qed.

(** An upload keeps media ids unique. *)
Lemma upload_media_NoDup (c : value) (db : database) :
  NoDup (map fst (media db)) ->
  NoDup (map fst (media (snd (Card._upload_media c db)))).
Proof.
  intros H. unfold Card._upload_media.
  destruct (media_find c (media db)); simpl; [exact H|].
  rewrite map_app. simpl.
  apply NoDup_app; [exact H| repeat constructor; intros []|].
  intros i Hi [<-|[]]. now apply next_media_id_fresh in Hi.
Qed.

(** After an upload of [c], the returned id is the id of a row holding [c]. *)
Lemma upload_media_row (c : value) (db : database) :
  is_null c = false ->
  exists x, In (fst (Card._upload_media c db), x)
              (media (snd (Card._upload_media c db)))
            /\ sql_eq x c = true.
Proof.
  intros N. unfold Card._upload_media.
  destruct (media_find c (media db)) as [i|] eqn:F; simpl.
  - now apply media_find_Some.
  - exists (bound c). split; [|now apply sql_eq_bound_refl].
    apply in_or_app. right. now left.
Qed.




(** ** Reading an attribute *)

Lemma mem_In (k : string) (l : list string) : mem k l = true <-> In k l.
Proof.
  unfold mem. rewrite existsb_exists. split.
  - intros (x & I & E). apply String.eqb_eq in E. now subst.
  - intros I. exists k. split; [exact I|apply String.eqb_refl].
Qed.

Lemma mem_app (k : string) (l l' : list string) :
  mem k (l ++ l') = mem k l || mem k l'.
Proof. apply existsb_app. Qed.

Lemma concrete_not_virtual (key : string) :
  mem key Card._concrete_fields = true ->
  mem key Card._virtual_media_fields = false.
Proof.
  intros H. apply mem_In in H. cbv in H.
  repeat (destruct H as [<-|H]; [reflexivity|]). contradiction.
Qed.

(** [latest_from] picks a referencing event that no referencing event is more
    recent than, and picks one as soon as there is one. *)
Lemma latest_from_spec (id : Z) (attr : string) (es : list edit) :
  forall best,
    (forall b, best = Some b -> references id attr b = true) ->
    match latest_from best id attr es with
    | Some e =>
        references id attr e = true
        /\ (best = Some e \/ In e es)
        /\ (forall b, best = Some b -> Qle (edit_date b) (edit_date e))
        /\ (forall e', In e' es -> references id attr e' = true ->
                       Qle (edit_date e') (edit_date e))
    | None => best = None /\ forall e', In e' es -> references id attr e' = false
    end.
Proof.
  induction es as [|e es IH]; intros best Hb; cbn [latest_from].
  - destruct best as [b|].
    + split; [now apply Hb|]. split; [now left|]. split.
      * intros b' [= <-]. apply Qle_refl.
      * intros e' [].
    + split; [reflexivity|]. intros e' [].
  - destruct (references id attr e) eqn:R.
    + set (best' := match best with
                    | Some b => if Qle_bool (edit_date b) (edit_date e)
                                then Some e else Some b
                    | None => Some e
                    end).
      assert (Hb' : forall b, best' = Some b -> references id attr b = true).
      { intros b. unfold best'. destruct best as [b0|].
        - destruct (Qle_bool _ _); intros [= <-]; auto.
        - intros [= <-]; auto. }
      specialize (IH best' Hb').
      destruct (latest_from best' id attr es) as [l|].
      * destruct IH as (Rl & Src & Ge & All).
        assert (Ee : Qle (edit_date e) (edit_date l)
                     /\ forall b, best = Some b -> Qle (edit_date b) (edit_date l)).
        { unfold best' in Ge. destruct best as [b0|].
          - destruct (Qle_bool (edit_date b0) (edit_date e)) eqn:C.
            + pose proof (Ge e eq_refl) as G. split; [exact G|].
              intros b [= <-]. apply Qle_bool_iff in C.
              eapply Qle_trans; eassumption.
            + pose proof (Ge b0 eq_refl) as G.
              assert (Qle (edit_date e) (edit_date b0)).
              { destruct (Qlt_le_dec (edit_date e) (edit_date b0)) as [L|L].
                - now apply Qlt_le_weak.
                - apply Qle_bool_iff in L. congruence. }
              split; [eapply Qle_trans; eassumption|].
              intros b [= <-]. exact G.
          - split; [exact (Ge e eq_refl)|]. intros b [=]. }
        destruct Ee as (Ee & Eb).
        split; [exact Rl|]. split.
        { destruct Src as [Src|Src]; [|right; now right].
          unfold best' in Src. destruct best as [b0|].
          - destruct (Qle_bool _ _); injection Src as <-;
              [right; now left|now left].
          - injection Src as <-. right; now left. }
        split; [exact Eb|].
        intros e' [<-|I] R'; [exact Ee|now apply All].
      * destruct IH as (N & _). unfold best' in N.
        destruct best as [b0|]; [destruct (Qle_bool _ _)|]; discriminate N.
    + specialize (IH best Hb).
      destruct (latest_from best id attr es) as [l|].
      * destruct IH as (Rl & Src & Ge & All).
        split; [exact Rl|]. split; [destruct Src; [now left|right; now right]|].
        split; [exact Ge|].
        intros e' [<-|I] R'; [congruence|now apply All].
      * destruct IH as (N & All). split; [exact N|].
        intros e' [<-|I]; [exact R|now apply All].
Qed.



(** Reading a stored attribute: through to [cards] when the handle has not
    cached it, from the cache otherwise. *)
Lemma getitem_latest_edit_cases (self : Card.card) (key : string) (db : database) :
  mem key Card._concrete_fields = true ->
  key <> "id" ->
  in_cards (edits db) (Card.id self) = true ->
  (dict_get key (Card._dict self) = None ->
   let v := as_read key (queryLatest (edits db) (Card.id self) key) in
   Card.__getitem__ self key db
   = (Return v, Card.set_dict self (dict_set key v (Card._dict self))))
  /\ (forall v, dict_get key (Card._dict self) = Some v ->
                Card.__getitem__ self key db = (Return v, self)).
Proof.
  intros C N I.
  assert (F : mem key Card._fields = true).
  { unfold Card._fields. rewrite mem_app, C. reflexivity. }
  unfold Card.__getitem__. rewrite F. cbn [negb].
  split.
  - intros ->. rewrite (concrete_not_virtual key C).
    unfold select_card_column. rewrite I.
    apply String.eqb_neq in N. rewrite N. reflexivity.
  - intros v ->. reflexivity.
Qed.



(** A virtual media attribute that the handle has not cached reads as [None]
    whatever the media store holds, [_get_virtual_media_field] returning
    nothing. *)
Lemma getitem_virtual_media (self : Card.card) (key : string) (db : database) :
  mem key Card._virtual_media_fields = true ->
  dict_get key (Card._dict self) = None ->
  fst (Card.__getitem__ self key db) = Return VNone
  \/ fst (Card.__getitem__ self key db) = Raise TypeError.
Proof.
  intros V D.
  assert (F : mem key Card._fields = true).
  { unfold Card._fields. rewrite mem_app, V. apply orb_true_r. }
  assert (N : mem key Card._date_fields = false).
  { apply mem_In in V. cbv in V.
    repeat (destruct V as [<-|V]; [reflexivity|]). contradiction. }
  unfold Card.__getitem__. rewrite F, D, V, N. cbn [negb].
  unfold Card._get_virtual_media_field.
  destruct (select_card_column _ _ _) as [m|]; cbn; [|now right].
  destruct (truthy m); cbn; [|now left].
  destruct (media_content m (media db)); cbn; [now left|now right].
Qed.

(** ** Updating a card *)

Lemma dict_get_set_other (k k' : string) (v : value) (d : dict) :
  k <> k' -> dict_get k (dict_set k' v d) = dict_get k d.
Proof.
  intros N. induction d as [|[k0 v0] d IH]; simpl.
  - apply String.eqb_neq in N. now rewrite N.
  - destruct (String.eqb k' k0) eqn:E; simpl.
    + apply String.eqb_eq in E. subst k0.
      apply String.eqb_neq in N. now rewrite N.
    + now rewrite IH.
Qed.

Lemma dict_get_set_same (k : string) (v : value) (d : dict) :
  dict_get k (dict_set k v d) = Some v.
Proof.
  induction d as [|[k0 v0] d IH]; simpl.
  - now rewrite String.eqb_refl.
  - destruct (String.eqb k k0) eqn:E; simpl.
    + now rewrite String.eqb_refl.
    + now rewrite E.
Qed.


Lemma dict_get_Some_key (k : string) (v : value) (d : dict) :
  dict_get k d = Some v -> In k (keys d).
Proof.
  induction d as [|[k0 v0] d IH]; simpl; [discriminate|].
  destruct (String.eqb k k0) eqn:E.
  - apply String.eqb_eq in E. now left.
  - right. now apply IH.
Qed.




(** ** No-op visibility changes *)


(** The bulk [_change_visibility] appends one event for each selected row,
    and selects no row of a card whose visibility already is the requested
    one. *)
Lemma fold_insert_edits (mk : Cardlist.row -> dict) (clock : Q)
    (rows : list Cardlist.row) :
  forall db,
    let db' := fold_left (fun db r => insert_edit (mk r) clock db) rows db in
    edits db'
    = edits db
      ++ map (fun r => {| e_row := map (fun kv => (fst kv, bound (snd kv))) (mk r);
                          e_clock := clock |}) rows
    /\ media db' = media db.
Proof.
  induction rows as [|r rows IH]; intros db; cbn [fold_left map].
  - now rewrite app_nil_r.
  - destruct (IH (insert_edit (mk r) clock db)) as (E & M).
    cbv zeta in *. rewrite E, M. cbn [insert_edit edits media].
    now rewrite <- app_assoc.
Qed.

Lemma relation_rows decks (db : database) (name : string) (rows : list Cardlist.row)
    (r : Cardlist.row) :
  Cardlist.relation decks db name = Some rows ->
  In r rows ->
  Cardlist.column r "visibility" = queryLatest (edits db) (Cardlist.row_id r) "visibility".
Proof.
  intros R I.
  assert (V : In r (Cardlist.cards_view (edits db))).
  { unfold Cardlist.relation in R. destruct (String.eqb name "cards").
    - injection R as <-. exact I.
    - destruct (decks name); [|discriminate]. injection R as <-.
      now apply filter_In in I. }
  unfold Cardlist.cards_view in V. apply in_map_iff in V as (i & <- & _).
  reflexivity.
Qed.

Lemma cardlist_change_visibility_skips str like tags decks
    (self : Cardlist.cardlist) (visibility : string) (date : value)
    (NOW clock : Q) (db db' : database) (n : Z) :
  Cardlist._change_visibility str like tags decks self visibility date NOW clock db
  = (Return n, db') ->
  exists added,
    edits db' = edits db ++ added
    /\ n = Z.of_nat (List.length added)
    /\ forall id,
        queryLatest (edits db) id "visibility" = VStr visibility ->
        forall e, In e added -> edit_card_id e <> Some id.
Proof.
  unfold Cardlist._change_visibility.
  destruct (assert _); [|discriminate].
  destruct (Cardlist._conditions self) as [|c cs] eqn:C; [discriminate|].
  unfold Cardlist.matching.
  destruct ((c :: cs) ++ _) as [|c' cs'] eqn:A; [discriminate|].
  rewrite <- A. clear A c' cs'.
  destruct (Cardlist.relation decks db (Cardlist.deck self)) as [rows|] eqn:R;
    [|discriminate].
  set (sel := filter _ rows).
  intros [= <- <-].
  match goal with
  | |- context [fold_left (fun db r => insert_edit (@?mk r) clock db) sel db] =>
      destruct (fold_insert_edits mk clock sel db) as (E & _)
  end.
  cbv zeta in E. eexists. split; [exact E|].
  split; [now rewrite length_map|].
  intros id V e I. apply in_map_iff in I as (r & <- & I).
  unfold edit_card_id, edit_column. cbn.
  intros [= H].
  apply filter_In in I as (I & K).
  rewrite keeps_app in K. apply andb_true_iff in K as (_ & K).
  unfold Cardlist.keeps, Cardlist.eval_all in K.
  cbn [fold_right Cardlist.eval Cardlist.operand_value] in K.
  rewrite (relation_rows decks db _ rows r R I), H, V in K.
  unfold sql_cmp in K. cbn [storage_of storage_compare] in K.
  rewrite string_compare_refl in K.
  discriminate K.
Qed.

(** ** Indexing a view *)







(** ** Date conditions *)

Lemma as_num_storage (v : value) (q : Q) :
  as_num v = Some q <-> storage_of v = SNumeric q.
Proof.
  induction v; simpl; try (split; discriminate); try exact IHv;
    split; intros [= <-]; reflexivity.
Qed.

(** [col < x], for a number [x], is true exactly on the rows whose column
    holds a number below [x]. *)
Lemma sql_lt_number (v lit : value) (x : Q) :
  as_num lit = Some x ->
  (sql_cmp Lt v lit = Some true <-> exists q, as_num v = Some q /\ Qlt q x).
Proof.
  intros L. apply as_num_storage in L. unfold sql_cmp. rewrite L.
  destruct (storage_of v) as [|q|s|s] eqn:S; cbn [storage_compare].
  - split; [discriminate|]. intros (q & A & _). apply as_num_storage in A. congruence.
  - destruct (Qeq_bool q x) eqn:E.
    + split; [discriminate|]. intros (q' & A & H).
      apply as_num_storage in A. rewrite S in A. injection A as <-.
      apply Qeq_bool_iff in E. rewrite E in H. now apply Qlt_irrefl in H.
    + destruct (Qle_bool q x) eqn:C.
      * split; [intros _|reflexivity]. exists q. split; [now apply as_num_storage|].
        apply Qlt_leneq. split; [now apply Qle_bool_iff|].
        intros H. apply Qeq_bool_iff in H. congruence.
      * split; [discriminate|]. intros (q' & A & H).
        apply as_num_storage in A. rewrite S in A. injection A as <-.
        apply Qlt_le_weak, Qle_bool_iff in H. congruence.
  - split; [discriminate|]. intros (q & A & _). apply as_num_storage in A. congruence.
  - split; [discriminate|]. intros (q & A & _). apply as_num_storage in A. congruence.
Qed.

(** ** Due cards *)

(** [filter(due=True)] appends [due_date < NOW], which holds on the rows
    whose due date is strictly before [NOW]. *)
Lemma due_filter_strict str like tags (NOW : Q) (self : Cardlist.cardlist)
    (r : Cardlist.row) :
  snd (Cardlist.filter NOW (due_only (VBool true)) self)
  = Return (Cardlist.View (extended self [due_now NOW]))
  /\ (holds str like tags r (due_now NOW) = true
      <-> exists q, as_num (Cardlist.column r "due_date") = Some q /\ Qlt q NOW).
Proof.
  split; [reflexivity|].
  unfold holds, due_now. cbn [Cardlist.eval Cardlist.operand_value].
  rewrite <- (sql_lt_number _ (VFloat NOW) NOW eq_refl).
  destruct (sql_cmp Lt _ _) as [[|]|]; split; congruence.
Qed.

(** [is_due] compares with [<=] against the value of [today()]. *)
Lemma is_due_le (today : value) (self : Card.card) (db : database) (q t : Q) :
  dict_get "due_date" (Card._dict self) = None ->
  in_cards (edits db) (Card.id self) = true ->
  as_num (queryLatest (edits db) (Card.id self) "due_date") = Some q ->
  as_num today = Some t ->
  fst (Card.is_due today self db) = Return (Qle_bool q t).
Proof.
  intros D I Q T. unfold Card.is_due.
  assert (N : "due_date" <> "id") by discriminate.
  rewrite (proj1 (getitem_latest_edit_cases self "due_date" db eq_refl N I) D).
  cbn [fst bind]. unfold py_le, as_read. cbn [mem existsb String.eqb Ascii.eqb
    Bool.eqb Card._date_fields orb Card.JulianDate as_num].
  now rewrite Q, T.
Qed.

(** C8, at a card that falls due exactly now: [filter(due=True)] does not
    match it, although its due date is not after [NOW] and [is_due] holds. *)
Lemma due_filter_misses_card_due_now str like tags :
  let NOW := (100 # 1)%Q in
  let db := {| edits := [ {| e_row := [("card_id", VInt 1); ("visibility", VStr "visible");
                                       ("due_date", VFloat (100 # 1))];
                             e_clock := 1 # 1 |} ];
               media := [] |} in
  let view := Cardlist.__init__ Cardlist.default_conditions
                Cardlist.default_ORDER_BY None in
  let card := Cardlist.cards_row (edits db) 1 in
  snd (Cardlist.filter NOW (due_only (VBool true)) view)
  = Return (Cardlist.View (extended view [due_now NOW]))
  /\ Cardlist.column card "due_date" = VFloat (100 # 1)
  /\ Qle_bool (100 # 1) NOW = true
  /\ Cardlist.keeps str like tags (Cardlist._conditions view) card = true
  /\ Cardlist.keeps str like tags
       (Cardlist._conditions (extended view [due_now NOW])) card = false
  /\ fst (Card.is_due (VFloat (100 # 1)) (Card.__init__ 1) db) = Return true.
Proof. cbv zeta. repeat split. Qed.

(** Whatever [now()] and [today()] read, some due date separates the two
    tests. *)
Lemma due_tests_disagree (NOW today : Q) :
  exists due_date : Q, Qle_bool due_date today <> Qlt_bool due_date NOW.
Proof.
  destruct (Qlt_le_dec today NOW) as [L|L].
  - exists ((today + NOW) * (1 # 2))%Q.
    assert (A : (today < (today + NOW) * (1 # 2))%Q) by lra.
    assert (B : ((today + NOW) * (1 # 2) < NOW)%Q) by lra.
    unfold Qlt_bool.
    destruct (Qle_bool ((today + NOW) * (1 # 2)) today) eqn:E1.
    + apply Qle_bool_iff in E1. now apply Qle_not_lt in E1.
    + destruct (Qle_bool NOW ((today + NOW) * (1 # 2))) eqn:E2; [|discriminate].
      apply Qle_bool_iff in E2. now apply Qle_not_lt in E2.
  - exists NOW. unfold Qlt_bool.
    apply Qle_bool_iff in L. rewrite L.
    assert (R : Qle_bool NOW NOW = true) by (apply Qle_bool_iff, Qle_refl).
    rewrite R. discriminate.
Qed.

(** ** Date parameters *)





(** One more year adds a leap day exactly in the years the divisions count. *)
Lemma div_step_4 (y : Z) : y / 4 - (y - 1) / 4 = if y mod 4 =? 0 then 1 else 0.
Proof.
  destruct (y mod 4 =? 0) eqn:E; [apply Z.eqb_eq in E|apply Z.eqb_neq in E];
    Z.div_mod_to_equations; lia.
Qed.

Lemma div_step_100 (y : Z) : y / 100 - (y - 1) / 100 = if y mod 100 =? 0 then 1 else 0.
Proof.
  destruct (y mod 100 =? 0) eqn:E; [apply Z.eqb_eq in E|apply Z.eqb_neq in E];
    Z.div_mod_to_equations; lia.
Qed.

Lemma div_step_400 (y : Z) : y / 400 - (y - 1) / 400 = if y mod 400 =? 0 then 1 else 0.
Proof.
  destruct (y mod 400 =? 0) eqn:E; [apply Z.eqb_eq in E|apply Z.eqb_neq in E];
    Z.div_mod_to_equations; lia.
Qed.

Lemma mod_400_100 (y : Z) : y mod 400 = 0 -> y mod 100 = 0.
Proof. intros; Z.div_mod_to_equations; lia. Qed.

Lemma mod_100_4 (y : Z) : y mod 100 = 0 -> y mod 4 = 0.
Proof. intros; Z.div_mod_to_equations; lia. Qed.




(** * Further properties of [card.py] *)

(** ** Reading: unknown names and missing cards *)

Lemma virtual_is_field (key : string) :
  mem key Card._virtual_media_fields = true -> mem key Card._fields = true.
Proof. intros V. unfold Card._fields. rewrite mem_app, V. apply orb_true_r. Qed.

Lemma editable_is_concrete (key : string) :
  mem key Card._editable_fields = true ->
  mem key Card._concrete_fields = true /\ key <> "id".
Proof.
  intros E. apply mem_In in E. cbv in E.
  repeat (destruct E as [<-|E]; [split; [reflexivity|discriminate]|]).
  contradiction.
Qed.



(** ** Writing and reading back *)

Lemma dict_update_get_other (k : string) (e : dict) :
  forall d, ~ In k (keys e) -> dict_get k (dict_update d e) = dict_get k d.
Proof.
  unfold dict_update. induction e as [|[k0 v0] e IH]; intros d N; cbn; [reflexivity|].
  rewrite IH by (intros I; apply N; now right).
  apply dict_get_set_other. intros ->. apply N. now left.
Qed.

Lemma dict_update_get (k : string) (v : value) (e : dict) :
  forall d, NoDup (keys e) -> dict_get k e = Some v ->
            dict_get k (dict_update d e) = Some v.
Proof.
  induction e as [|[k0 v0] e IH]; intros d U G; [discriminate G|].
  cbn in U. inversion U as [|? ? N U']; subst.
  cbn [dict_get] in G. unfold dict_update. cbn [fold_left fst snd].
  fold (dict_update (dict_set k0 v0 d) e).
  destruct (String.eqb k k0) eqn:E.
  - apply String.eqb_eq in E. subst k0. injection G as <-.
    rewrite dict_update_get_other by exact N. apply dict_get_set_same.
  - now apply IH.
Qed.

Lemma dict_set_keys (k : string) (v : value) (d : dict) :
  keys (dict_set k v d) = if mem k (keys d) then keys d else keys d ++ [k].
Proof.
  unfold keys, mem. induction d as [|[k0 v0] d IH]; [reflexivity|].
  cbn [dict_set map fst existsb].
  destruct (String.eqb k k0) eqn:E; cbn [map fst orb].
  - apply String.eqb_eq in E. now subst.
  - rewrite IH. now destruct (existsb _ (map fst d)).
Qed.

Lemma dict_set_NoDup (k : string) (v : value) (d : dict) :
  NoDup (keys d) -> NoDup (keys (dict_set k v d)).
Proof.
  intros U. rewrite dict_set_keys. destruct (mem k (keys d)) eqn:M; [exact U|].
  apply NoDup_app; [exact U|repeat constructor; intros []|].
  intros x I [<-|[]]. apply mem_In in I. congruence.
Qed.

(** The dictionary [_update] inserts: the given one with the bookkeeping
    keys. *)
Lemma update_outcome (self : Card.card) (d : dict) (date seconds : value)
    (clock : Q) (db : database) (self' : Card.card) (db' : database) :
  d <> [] ->
  Card._update self d date seconds clock db = (Return tt, self', db') ->
  exists row,
    self' = Card.set_dict self (dict_update (Card._dict self) row)
    /\ db' = insert_edit row clock db
    /\ (NoDup (keys d) -> NoDup (keys row))
    /\ dict_get "card_id" row = Some (VInt (Card.id self))
    /\ (truthy date = false -> dict_get "date" row = dict_get "date" d)
    /\ (forall k, mem k Card._editable_fields = true -> dict_get k row = dict_get k d)
    /\ (forall k, In k (keys d) -> mem k Card._editable_fields = true).
Proof.
  intros N. unfold Card._update.
  destruct (forallb _ (keys d)) eqn:A; cbn [assert]; [|discriminate].
  destruct d as [|kv d]; [now elim N|]. cbn [keys map]. fold (keys d).
  set (d0 := kv :: d).
  set (d1 := if truthy date then dict_set "date" date d0 else d0).
  set (d2 := if truthy seconds then dict_set "seconds" seconds d1 else d1).
  intros [= <- <-]. exists (dict_set "card_id" (VInt (Card.id self)) d2).
  split; [reflexivity|]. split; [reflexivity|]. repeat split.
  - intros U. apply dict_set_NoDup. unfold d2, d1.
    destruct (truthy seconds), (truthy date); repeat apply dict_set_NoDup; exact U.
  - apply dict_get_set_same.
  - intros T. rewrite dict_get_set_other by discriminate.
    unfold d2, d1. rewrite T.
    destruct (truthy seconds); [rewrite dict_get_set_other by discriminate|];
      reflexivity.
  - intros k E.
    assert (K : k <> "date" /\ k <> "seconds" /\ k <> "card_id")
      by (repeat split; intros ->; discriminate E).
    destruct K as (K1 & K2 & K3).
    rewrite dict_get_set_other by exact K3. unfold d2, d1.
    destruct (truthy seconds), (truthy date);
      rewrite ?(dict_get_set_other k "seconds") by exact K2;
      rewrite ?(dict_get_set_other k "date") by exact K1; reflexivity.
  - intros k I. rewrite forallb_forall in A. now apply A.
Qed.

(** X2.  After a successful [_update], the handle that made it reads every
    given field back exactly as given, from its cache: the value is neither
    fetched again nor wrapped as a date, whatever the database holds by
    then. *)
Theorem update_then_read_same_handle (self self' : Card.card) (d : dict)
    (date seconds : value) (clock : Q) (db db' later : database)
    (k : string) (v : value) :
  NoDup (keys d) ->
  Card._update self d date seconds clock db = (Return tt, self', db') ->
  dict_get k d = Some v ->
  Card.__getitem__ self' k later = (Return v, self').
Proof.
  intros U H G.
  assert (N : d <> []) by (intros ->; discriminate G).
  destruct (update_outcome self d date seconds clock db self' db' N H)
    as (row & -> & _ & Ur & _ & _ & Same & Ed).
  assert (E : mem k Card._editable_fields = true)
    by (apply Ed; now apply dict_get_Some_key with v).
  destruct (editable_is_concrete k E) as (C & _).
  assert (F : mem k Card._fields = true)
    by (unfold Card._fields; now rewrite mem_app, C).
  unfold Card.__getitem__. rewrite F. cbn [negb Card._dict Card.set_dict].
  rewrite (dict_update_get k v row); [reflexivity|now apply Ur|].
  now rewrite Same.
Qed.

Lemma update_then_read_same_handle_witness :
  let db := {| edits := []; media := [] |} in
  let r := Card._update (Card.__init__ 1) [("due_date", VFloat (5 # 1))]
             VNone (VInt 0) (1 # 1) db in
  fst (Card.__getitem__ (snd (fst r)) "due_date" db) = Return (VFloat (5 # 1)).
Proof.
  intros db r.
  assert (U : NoDup (keys [("due_date", VFloat (5 # 1))])).
  { repeat constructor. intros []. }
  exact (f_equal fst
           (update_then_read_same_handle (Card.__init__ 1) (snd (fst r))
              [("due_date", VFloat (5 # 1))]
              VNone (VInt 0) (1 # 1) db (snd r) db "due_date" (VFloat (5 # 1))
              U eq_refl eq_refl)).
Defined.

(** ** A new event becomes the current value *)

Lemma latest_from_app (id : Z) (attr : string) (es es' : list edit) :
  forall best,
    latest_from best id attr (es ++ es')
    = latest_from (latest_from best id attr es) id attr es'.
Proof.
  induction es as [|e es IH]; intros best; cbn [latest_from app]; [reflexivity|].
  apply IH.
Qed.

Lemma queryLatest_snoc (es : list edit) (e : edit) (id : Z) (attr : string) :
  references id attr e = true ->
  (forall e', In e' es -> references id attr e' = true ->
              Qle (edit_date e') (edit_date e)) ->
  queryLatest (es ++ [e]) id attr = edit_column attr e.
Proof.
  intros R Le. unfold queryLatest. rewrite latest_from_app. cbn [latest_from].
  rewrite R.
  assert (H := latest_from_spec id attr es None).
  assert (H0 : forall b, @None edit = Some b -> references id attr b = true)
    by (intros b [=]).
  specialize (H H0).
  destruct (latest_from None id attr es) as [b|]; [|reflexivity].
  destruct H as (Rb & [S|I] & _); [discriminate|].
  assert (C : Qle_bool (edit_date b) (edit_date e) = true)
    by (apply Qle_bool_iff; now apply Le).
  now rewrite C.
Qed.

Lemma queryLatest_snoc_other (es : list edit) (e : edit) (id : Z) (attr : string) :
  references id attr e = false ->
  queryLatest (es ++ [e]) id attr = queryLatest es id attr.
Proof.
  intros R. unfold queryLatest. rewrite latest_from_app. cbn [latest_from].
  now rewrite R.
Qed.

Lemma in_cards_app (es es' : list edit) (id : Z) :
  in_cards (es ++ es') id = in_cards es id || in_cards es' id.
Proof. apply existsb_app. Qed.



(** ** The media store, read back *)

Lemma sql_eq_int (a b : Z) : sql_eq (VInt a) (VInt b) = (a =? b).
Proof.
  destruct (a =? b) eqn:E.
  - apply Z.eqb_eq in E. subst. apply sql_eq_same. cbn [storage_of same].
    reflexivity.
  - destruct (sql_eq (VInt a) (VInt b)) eqn:S; [|reflexivity].
    apply sql_eq_same in S. cbn [storage_of same] in S.
    apply Z.eqb_neq in E. elim E. apply inject_Z_injective. exact S.
Qed.

Lemma media_content_In (m : list (Z * value)) (i : Z) (x : value) :
  NoDup (map fst m) -> In (i, x) m -> media_content (VInt i) m = Some x.
Proof.
  unfold media_content. induction m as [|[j y] m IH]; [contradiction|].
  cbn [map fst find snd]. intros U I. inversion U as [|? ? N U']; subst.
  rewrite sql_eq_int. destruct (j =? i) eqn:E.
  - apply Z.eqb_eq in E. subst j. destruct I as [I|I]; [now injection I as ->|].
    elim N. now apply (in_map fst) in I.
  - destruct I as [I|I]; [injection I as -> _; now rewrite Z.eqb_refl in E|].
    now apply IH.
Qed.

Lemma media_content_absent (m : list (Z * value)) (i : Z) :
  ~ In i (map fst m) -> media_content (VInt i) m = None.
Proof.
  unfold media_content. induction m as [|[j y] m IH]; [reflexivity|].
  cbn [map fst find snd]. intros N. rewrite sql_eq_int.
  destruct (j =? i) eqn:E.
  - apply Z.eqb_eq in E. subst. elim N. now left.
  - apply IH. intros I. apply N. now right.
Qed.

Lemma media_content_app_old (m m' : list (Z * value)) (j : Z) :
  In j (map fst m) ->
  media_content (VInt j) (m ++ m') = media_content (VInt j) m.
Proof.
  unfold media_content. induction m as [|[i y] m IH]; [contradiction|].
  cbn [map fst find snd app]. rewrite sql_eq_int. intros I.
  destruct (i =? j) eqn:E; [reflexivity|].
  apply IH. destruct I as [I|I]; [|exact I].
  subst. now rewrite Z.eqb_refl in E.
Qed.

Lemma upload_media_extends (c : value) (db : database) :
  edits (snd (Card._upload_media c db)) = edits db
  /\ exists added, media (snd (Card._upload_media c db)) = media db ++ added.
Proof.
  unfold Card._upload_media. destruct (media_find c (media db)); cbn.
  - split; [reflexivity|]. exists []. now rewrite app_nil_r.
  - split; [reflexivity|]. eexists. reflexivity.
Qed.

(** X4.  What [_upload_media] returns, [_get_media] resolves: the content
    read back under the returned id equals the uploaded one (under the
    store's comparison).  An upload disturbs no earlier medium, and an id no
    row carries reads as [None], not as an error.  Ids are unique and the
    content is not NULL. *)
Theorem media_round_trip (content : value) (db : database) :
  is_null content = false ->
  NoDup (map fst (media db)) ->
  let up := Card._upload_media content db in
  sql_eq (Card._get_media (VInt (fst up)) (snd up)) content = true
  /\ (forall j, In j (map fst (media db)) ->
                Card._get_media (VInt j) (snd up) = Card._get_media (VInt j) db)
  /\ (forall j, ~ In j (map fst (media (snd up))) ->
                Card._get_media (VInt j) (snd up) = VNone).
Proof.
  intros N U. cbv zeta. split; [|split].
  - destruct (upload_media_row content db N) as (x & I & E).
    unfold Card._get_media.
    rewrite (media_content_In _ _ x (upload_media_NoDup content db U) I).
    exact E.
  - intros j I. unfold Card._get_media.
    destruct (upload_media_extends content db) as (_ & added & ->).
    now rewrite media_content_app_old.
  - intros j I. unfold Card._get_media. now rewrite media_content_absent.
Qed.

Lemma media_round_trip_witness :
  let db := {| edits := []; media := [(1, VBytes "png")] |} in
  Card._get_media (VInt 2) (snd (Card._upload_media (VBytes "ogg") db)) = VBytes "ogg"
  /\ Card._get_media (VInt 1) (snd (Card._upload_media (VBytes "ogg") db))
     = VBytes "png".
Proof.
  intros db.
  assert (U : NoDup (map fst (media db))).
  { cbn. repeat constructor. intros []. }
  destruct (media_round_trip (VBytes "ogg") db eq_refl U) as (_ & H & _).
  split; [reflexivity|]. apply (H 1). now left.
Defined.

(** ** Assignment *)

(** X5.  An assignment to [id], or to a name that is not a field, raises
    [AssertionError] and touches neither the cache nor the database.  For any
    other name the handle reads the assigned value back from its cache
    afterwards, whatever the database holds by then. *)
Theorem setitem_guards_and_cache (columns : list string) (self : Card.card)
    (key : string) (v : value) (clock : Q) (db : database) :
  (key = "id" \/ mem key Card._fields = false ->
   Card.__setitem__ columns self key v clock db = (Raise AssertionError, self, db))
  /\ (key <> "id" -> mem key Card._fields = true ->
      forall later,
        let self' := snd (fst (Card.__setitem__ columns self key v clock db)) in
        Card.__getitem__ self' key later = (Return v, self')).
Proof.
  split.
  - intros [->|F]; [reflexivity|]. unfold Card.__setitem__.
    destruct (negb (String.eqb key "id")); cbn [assert]; [|reflexivity].
    now rewrite F.
  - intros N F later. unfold Card.__setitem__.
    apply String.eqb_neq in N. rewrite N, F. cbn [negb assert].
    assert (G : forall s, Card._dict s = dict_set key v (Card._dict self) ->
                          Card.__getitem__ s key later = (Return v, s)).
    { intros s Hs. unfold Card.__getitem__. rewrite F, Hs. cbn [negb].
      now rewrite dict_get_set_same. }
    unfold Card._set_virtual_media_field, Card.insert_edit_checked.
    destruct (mem key Card._virtual_media_fields).
    + destruct (Card._upload_media v db) as [i db1].
      destruct (forallb _ _); cbn [fst snd]; now apply G.
    + destruct (forallb _ _); cbn [fst snd]; now apply G.
Qed.

Lemma setitem_guards_and_cache_witness :
  let db := {| edits := []; media := [] |} in
  Card.__setitem__ ["card_id"; "hint"] (Card.__init__ 1) "id" (VInt 2) (1 # 1) db
  = (Raise AssertionError, Card.__init__ 1, db).
Proof.
  intros db.
  apply (proj1 (setitem_guards_and_cache ["card_id"; "hint"] (Card.__init__ 1)
                  "id" (VInt 2) (1 # 1) db)).
  now left.
Defined.

(** X6.  Assigning a content to a virtual media field stores the content in
    the media store and appends one edit event whose only columns are
    [card_id] and the field's [_id] column, holding the medium's id: the
    content itself never enters the edit stream, and the id resolves back to
    it.  The [edits] table has the columns [_update] writes. *)
Theorem setitem_virtual_media (columns : list string) (self : Card.card)
    (key : string) (content : value) (clock : Q) (db : database) :
  mem key Card._virtual_media_fields = true ->
  is_null content = false ->
  NoDup (map fst (media db)) ->
  forallb (fun k => mem k columns) ("card_id" :: Card._editable_fields) = true ->
  let r := Card.__setitem__ columns self key content clock db in
  let up := Card._upload_media content db in
  fst (fst r) = Return tt
  /\ edits (snd r)
     = edits db
       ++ [ {| e_row := [("card_id", VInt (Card.id self));
                         (key ++ "_id", VInt (fst up))]%string;
               e_clock := clock |} ]
  /\ media (snd r) = media (snd up)
  /\ sql_eq (Card._get_media (VInt (fst up)) (snd r)) content = true.
Proof.
  intros V N U Cols r up.
  assert (F : mem key Card._fields = true) by now apply virtual_is_field.
  assert (Nid : String.eqb key "id" = false).
  { apply mem_In in V. cbv in V.
    repeat (destruct V as [<-|V]; [reflexivity|]). contradiction. }
  assert (Kc : mem (key ++ "_id")%string columns = true).
  { rewrite forallb_forall in Cols. apply Cols. right.
    apply mem_In in V. cbv in V.
    repeat (destruct V as [<-|V]; [cbv; tauto|]). contradiction. }
  assert (Cc : mem "card_id" columns = true).
  { rewrite forallb_forall in Cols. apply Cols. now left. }
  assert (R : r = (Return tt,
                   Card.set_dict self (dict_set key content (Card._dict self)),
                   insert_edit [("card_id", VInt (Card.id self));
                                ((key ++ "_id")%string, VInt (fst up))]
                     clock (snd up))).
  { unfold r, Card.__setitem__. rewrite Nid, F, V. cbn [negb assert].
    unfold Card._set_virtual_media_field. fold up.
    destruct up as [i db1]. cbn [fst snd Card.id Card.set_dict].
    unfold Card.insert_edit_checked. cbn [keys map fst forallb].
    now rewrite Cc, Kc. }
  rewrite R. cbn [fst snd insert_edit edits media map bound].
  destruct (upload_media_extends content db) as (E & _). fold up in E.
  rewrite E. repeat split.
  destruct (media_round_trip content db N U) as (H & _).
  exact H.
Qed.

Lemma setitem_virtual_media_witness :
  let db := {| edits := []; media := [] |} in
  let r := Card.__setitem__ ("card_id" :: Card._editable_fields) (Card.__init__ 1)
             "front_image" (VBytes "png") (1 # 1) db in
  edits (snd r)
  = [ {| e_row := [("card_id", VInt 1); ("front_image_id", VInt 1)];
         e_clock := 1 # 1 |} ].
Proof.
  intros db r.
  exact (proj1 (proj2 (setitem_virtual_media ("card_id" :: Card._editable_fields)
                         (Card.__init__ 1) "front_image" (VBytes "png") (1 # 1) db
                         eq_refl eq_refl (NoDup_nil Z) eq_refl))).
Defined.

(** ** A single-card visibility change *)

(** X7.  The single-card [_change_visibility] writes only when the state is
    one of the three it knows and a date is passed: an unknown state raises
    [AssertionError], a missing date [NameError] (so do [_delete], [_restore]
    and [_purge] called without one), and neither writes.  Otherwise one
    event is appended, and when its date is not before that of any earlier
    event of the card the card exists and its current visibility is the
    requested one. *)
Theorem card_change_visibility_outcomes (self : Card.card) (visibility : string)
    (date : value) (clock : Q) (db : database) :
  let r := Card._change_visibility self visibility date clock db in
  let known := mem visibility ["deleted"; "visible"; "purged"] in
  (known = false -> r = (Raise AssertionError, db))
  /\ (known = true -> truthy date = false -> r = (Raise NameError, db))
  /\ Card._delete self VNone clock db = (Raise NameError, db)
  /\ Card._restore self VNone clock db = (Raise NameError, db)
  /\ Card._purge self VNone clock db = (Raise NameError, db)
  /\ (known = true -> truthy date = true ->
      fst r = Return tt
      /\ (exists e, edits (snd r) = edits db ++ [e])
      /\ media (snd r) = media db
      /\ forall q,
          as_num date = Some q ->
          (forall e, In e (edits db) -> of_card (Card.id self) e = true ->
                     Qle (edit_date e) q) ->
          Card._exists self (snd r) = true
          /\ queryLatest (edits (snd r)) (Card.id self) "visibility"
             = VStr visibility).
Proof.
  intros r known. unfold r, known, Card._change_visibility.
  split; [intros ->; reflexivity|].
  split; [intros -> ->; reflexivity|].
  split; [reflexivity|]. split; [reflexivity|]. split; [reflexivity|].
  intros -> ->. cbn [assert fst snd]. unfold insert_edit.
  cbn [edits media map fst snd bound].
  split; [reflexivity|]. split; [eexists; reflexivity|]. split; [reflexivity|].
  intros q A Le.
  set (e := {| e_row := _; e_clock := clock |}).
  assert (Oc : of_card (Card.id self) e = true).
  { unfold of_card, edit_card_id, edit_column. cbn. apply Z.eqb_refl. }
  split.
  - unfold Card._exists. cbn [edits]. rewrite in_cards_app.
    cbn [in_cards existsb]. rewrite Oc. now rewrite orb_true_r.
  - rewrite queryLatest_snoc; [reflexivity| |].
    + unfold references. rewrite Oc. reflexivity.
    + intros e' I R. unfold references in R. apply andb_true_iff in R as (R & _).
      assert (De : edit_date e = q).
      { unfold edit_date, edit_column. cbn [e e_row dict_get String.eqb Ascii.eqb
          Bool.eqb]. cbn.
        assert (B : as_num (bound date) = Some q).
        { clear -A. induction date; cbn in *; try discriminate; auto. }
        now rewrite B. }
      rewrite De. now apply Le.
Qed.

Lemma card_change_visibility_outcomes_witness :
  let db := {| edits := [ {| e_row := [("card_id", VInt 1); ("visibility", VStr "visible")];
                             e_clock := 1 # 1 |} ];
               media := [] |} in
  Card._change_visibility (Card.__init__ 1) "hidden" (VFloat (2 # 1)) (2 # 1) db
  = (Raise AssertionError, db)
  /\ queryLatest
       (edits (snd (Card._change_visibility (Card.__init__ 1) "deleted"
                      (VFloat (2 # 1)) (2 # 1) db))) 1 "visibility"
     = VStr "deleted".
Proof.
  intros db.
  pose proof (card_change_visibility_outcomes (Card.__init__ 1) "hidden"
                (VFloat (2 # 1)) (2 # 1) db) as H1.
  pose proof (card_change_visibility_outcomes (Card.__init__ 1) "deleted"
                (VFloat (2 # 1)) (2 # 1) db) as H2.
  cbv zeta in H1, H2.
  split; [exact (proj1 H1 eq_refl)|].
  destruct H2 as (_ & _ & _ & _ & _ & H2).
  destruct (H2 eq_refl eq_refl) as (_ & _ & _ & H3).
  refine (proj2 (H3 (2 # 1)%Q eq_refl _)).
  intros e [<-|[]] _. cbv. discriminate.
Defined.

(** * Further properties of [cardlist.py] *)

(** ** Subscripts *)


(** ** Truth value, length and listing *)

Lemma execute_matching str like tags decks order_rows
    (self : Cardlist.cardlist) (db : database) :
  Cardlist.execute str like tags decks order_rows db (Cardlist._SELECT_IDS self)
  = rows <- Cardlist.matching str like tags decks db (Cardlist.deck self)
              (Cardlist._conditions self) ;;
    Return (map Cardlist.row_id (order_rows (Cardlist._ORDER_BY self) rows)).
Proof. reflexivity. Qed.





(** ** Filtering narrows, sorting keeps *)





(** X12.  [sort] changes the ordering and nothing else a query depends on:
    the view it returns has the caller's conditions, and on a view of the
    base collection it has the same length and returns the same cards, in
    some order. *)
Theorem sort_keeps_cards str like tags decks order_rows (criterion : value)
    (reverse : bool) (self v : Cardlist.cardlist) (db : database) :
  Cardlist.sort criterion reverse self = Cardlist.View v ->
  Cardlist.deck self = "cards" ->
  (forall o rows, Permutation (order_rows o rows) rows) ->
  Cardlist._conditions v = Cardlist._conditions self
  /\ Cardlist.__len__ str like tags decks v db
     = Cardlist.__len__ str like tags decks self db
  /\ match Cardlist.execute str like tags decks order_rows db
             (Cardlist._SELECT_IDS self),
           Cardlist.execute str like tags decks order_rows db
             (Cardlist._SELECT_IDS v) with
     | Return ids, Return ids' => Permutation ids ids'
     | Raise e, Raise e' => e = e'
     | _, _ => False
     end.
Proof.
  intros S D P. unfold Cardlist.sort in S.
  destruct (Cardlist.crit_lookup criterion) as [order|]; [|discriminate S].
  injection S as <-. cbn [Cardlist._copy Cardlist.__init__ Cardlist._conditions].
  split; [reflexivity|]. split.
  - unfold Cardlist.__len__. cbn [Cardlist.deck Cardlist._conditions]. now rewrite D.
  - rewrite !execute_matching. cbn [Cardlist.deck Cardlist._conditions
      Cardlist._ORDER_BY]. rewrite D.
    destruct (Cardlist.matching str like tags decks db "cards" _) as [rows|e];
      cbn [bind]; [|reflexivity].
    apply Permutation_map. rewrite P. symmetry. apply P.
Qed.

Lemma sort_keeps_cards_witness :
  let view := Cardlist.__init__ Cardlist.default_conditions
                Cardlist.default_ORDER_BY None in
  let db := {| edits := [ {| e_row := [("card_id", VInt 1); ("visibility", VStr "visible")];
                             e_clock := 1 # 1 |} ];
               media := [] |} in
  Cardlist.__len__ (fun _ => "") (fun _ _ => None) [] (fun _ => None)
    {| Cardlist._conditions := Cardlist.default_conditions;
       Cardlist._ORDER_BY := " ORDER BY create_date ASC";
       Cardlist.deck := "cards"; Cardlist.filters := None |} db
  = Cardlist.__len__ (fun _ => "") (fun _ _ => None) [] (fun _ => None) view db.
Proof.
  intros view db.
  exact (proj1 (proj2
    (sort_keeps_cards (fun _ => "") (fun _ _ => None) [] (fun _ => None)
       (fun _ rows => rows) (VStr "old") false view _ db eq_refl eq_refl
       (fun _ rows => Permutation_refl rows)))).
Defined.

(** X13.  Sorting and filtering compose freely: of two sorts the last one
    decides, [filter] keeps the ordering of the view it is called on, and
    sorting a filtered view gives the same view as filtering the sorted
    one. *)
Theorem sort_filter_compose (NOW : Q) (a : Cardlist.filter_args)
    (c1 c2 : value) (r1 r2 : bool) (self v1 vf : Cardlist.cardlist) :
  Cardlist.sort c1 r1 self = Cardlist.View v1 ->
  snd (Cardlist.filter NOW a self) = Return (Cardlist.View vf) ->
  Cardlist.sort c2 r2 v1 = Cardlist.sort c2 r2 self
  /\ Cardlist._ORDER_BY vf = Cardlist._ORDER_BY self
  /\ exists v, Cardlist.sort c1 r1 vf = Cardlist.View v
               /\ snd (Cardlist.filter NOW a v1) = Return (Cardlist.View v).
Proof.
  intros S F. unfold Cardlist.sort in *.
  destruct (Cardlist.crit_lookup c1) as [o1|]; [|discriminate S].
  injection S as <-.
  apply filter_view in F as (cs & C & ->).
  split; [|split].
  - now destruct (Cardlist.crit_lookup c2).
  - reflexivity.
  - eexists. split; [reflexivity|].
    rewrite (filter_of_contribution NOW a _ cs C). reflexivity.
Qed.

Lemma sort_filter_compose_witness :
  let view := Cardlist.__init__ Cardlist.default_conditions
                Cardlist.default_ORDER_BY (Some "verbs") in
  Cardlist.sort (VStr "random") false
    {| Cardlist._conditions := Cardlist.default_conditions;
       Cardlist._ORDER_BY := " ORDER BY create_date ASC";
       Cardlist.deck := "cards"; Cardlist.filters := None |}
  = Cardlist.sort (VStr "random") false view.
Proof.
  intros view.
  exact (proj1 (sort_filter_compose (100 # 1) (due_only (VBool true))
                  (VStr "old") (VStr "random") false false view _
                  (extended view [due_now (100 # 1)]) eq_refl eq_refl)).
Defined.

(** ** Arguments that impose no condition, and arguments that are refused *)

(** X14.  The texts ['any'] and [''] pass the requirement of at least one
    predicate without adding a condition: given for a scalar argument they
    make [filter] return a copy with the caller's conditions, not the usage
    text.  For a date argument [''] does the same, while ['any'] is refused
    with [ValueError]. *)
Theorem filter_any_or_empty (NOW : Q) (invert : bool) (name : string) (v : value)
    (self : Cardlist.cardlist) :
  v = VStr "any" \/ v = VStr "" ->
  let call := fun n x => snd (Cardlist.filter NOW
                                (set_param n x (no_predicates true invert)) self) in
  Cardlist._conditions (extended self []) = Cardlist._conditions self
  /\ (In name scalar_names -> call name v = Return (Cardlist.View (extended self [])))
  /\ (In name date_names ->
      call name (VStr "") = Return (Cardlist.View (extended self []))
      /\ call name (VStr "any") = Raise ValueError).
Proof.
  intros V. cbv zeta. split; [apply app_nil_r|]. split.
  - intros I. cbv [scalar_names In] in I.
    destruct V as [-> | ->];
      repeat (destruct I as [<-|I]; [rewrite filter_unfold; reflexivity|]);
      contradiction.
  - intros I. cbv [date_names In] in I.
    repeat (destruct I as [<-|I];
            [split; rewrite filter_unfold; reflexivity|]);
      contradiction.
Qed.

Lemma filter_any_or_empty_witness :
  let view := Cardlist.__init__ Cardlist.default_conditions
                Cardlist.default_ORDER_BY None in
  snd (Cardlist.filter (100 # 1)
         (set_param "due" (VStr "any") (no_predicates true false)) view)
  = Return (Cardlist.View (extended view [])).
Proof.
  intros view.
  refine (proj1 (proj2 (filter_any_or_empty (100 # 1) false "due" (VStr "any")
                          view (or_introl eq_refl))) _).
  cbv. tauto.
Defined.

Lemma clean_date_parseable (TODAY : Z) (v : value) :
  if parseable v
  then exists c, Cardlist.clean_date TODAY v = Return c
  else Cardlist.clean_date TODAY v = Raise ValueError.
Proof.
  destruct v; cbn [parseable Cardlist.clean_date]; try reflexivity;
    try (eexists; reflexivity).
  destruct (String.eqb s ""); cbn [orb]; [eexists; reflexivity|].
  destruct (Datetime.iso_fields s) as [[[y m] d]|]; [|reflexivity].
  destruct (Datetime.valid_date y m d); [eexists; reflexivity|reflexivity].
Qed.

(** X15.  [filter] raises exactly when one of its four date arguments is not
    [None], [''], an [int], or an ISO text that spells a calendar date; it
    then raises [ValueError], whatever the other arguments are.  In every
    case, also when it raises, the caller's [filters] record the arguments. *)
Theorem filter_raises_only_on_dates (NOW : Q) (a : Cardlist.filter_args)
    (self : Cardlist.cardlist) :
  let ok := parseable (Cardlist.created_after a)
            && parseable (Cardlist.created_before a)
            && parseable (Cardlist.due_after a)
            && parseable (Cardlist.due_before a) in
  (if ok
   then exists o, snd (Cardlist.filter NOW a self) = Return o
   else snd (Cardlist.filter NOW a self) = Raise ValueError)
  /\ Cardlist.filters (fst (Cardlist.filter NOW a self)) = Some a
  /\ parseable (VStr "2021-02-30") = false
  /\ parseable (VStr "2021-2-3") = false
  /\ parseable (VBool true) = false
  /\ parseable (VFloat (7 # 1)) = false.
Proof.
  cbv zeta. split; [|repeat split].
  rewrite filter_unfold. cbn [snd]. unfold contribution.
  pose proof (clean_date_parseable (int_of_float NOW) (Cardlist.created_after a)) as H1.
  pose proof (clean_date_parseable (int_of_float NOW) (Cardlist.created_before a)) as H2.
  pose proof (clean_date_parseable (int_of_float NOW) (Cardlist.due_after a)) as H3.
  pose proof (clean_date_parseable (int_of_float NOW) (Cardlist.due_before a)) as H4.
  destruct (parseable (Cardlist.created_after a)); cbn [andb];
    [destruct H1 as (c1 & ->)|now rewrite H1].
  destruct (parseable (Cardlist.created_before a)); cbn [andb bind];
    [destruct H2 as (c2 & ->)|now rewrite H2].
  destruct (parseable (Cardlist.due_after a)); cbn [andb bind];
    [destruct H3 as (c3 & ->)|now rewrite H3].
  destruct (parseable (Cardlist.due_before a)); cbn [andb bind];
    [destruct H4 as (c4 & ->)|now rewrite H4].
  cbn [bind].
  match goal with |- context [if ?b then _ else _] => destruct b end;
    cbn [bind]; eexists; reflexivity.
Qed.

(** ** Flags, and rows on which a condition is NULL *)

Lemma holds_not_exclusive str like tags (r : Cardlist.row) (c : Cardlist.sql) :
  holds str like tags r c && holds str like tags r (Cardlist.Not c) = false
  /\ (Cardlist.eval str like tags r c = None ->
      holds str like tags r c = false
      /\ holds str like tags r (Cardlist.Not c) = false)
  /\ (Cardlist.eval str like tags r c <> None ->
      xorb (holds str like tags r c) (holds str like tags r (Cardlist.Not c)) = true).
Proof.
  unfold holds. cbn [Cardlist.eval]. unfold Cardlist.sql_not.
  destruct (Cardlist.eval str like tags r c) as [[|]|]; cbn;
    repeat split; try reflexivity; try discriminate; intros H; now elim H.
Qed.

Lemma keeps_snoc str like tags (cs : list Cardlist.sql) (c : Cardlist.sql)
    (r : Cardlist.row) :
  Cardlist.keeps str like tags (cs ++ [c]) r
  = Cardlist.keeps str like tags cs r && holds str like tags r c.
Proof.
  rewrite keeps_app. f_equal. rewrite keeps_forallb. cbn [forallb].
  apply andb_true_r.
Qed.

(** X16.  For each flag of [filter] ([due], [deleted], [new], [images],
    [audio]): [True] appends the flag's condition and [False] its negation,
    and [invert] swaps the two, so that [False] under [invert] means [True].
    No card is in both resulting views; a card on which the condition is
    NULL (for [due]: a card without due date) is in neither; every other card
    of the caller's view is in exactly one. *)
Theorem flag_true_false_split str like tags (NOW : Q) (name : string)
    (c : Cardlist.sql) (self : Cardlist.cardlist) (r : Cardlist.row) :
  flag_condition NOW name = Some c ->
  let call := fun x i => snd (Cardlist.filter NOW
                                (set_param name x (no_predicates true i)) self) in
  let yes := extended self [c] in
  let no := extended self [Cardlist.Not c] in
  call (VBool true) false = Return (Cardlist.View yes)
  /\ call (VBool false) false = Return (Cardlist.View no)
  /\ call (VBool false) true = Return (Cardlist.View yes)
  /\ call (VBool true) true = Return (Cardlist.View no)
  /\ Cardlist.keeps str like tags (Cardlist._conditions yes) r
     && Cardlist.keeps str like tags (Cardlist._conditions no) r = false
  /\ (Cardlist.eval str like tags r c = None ->
      Cardlist.keeps str like tags (Cardlist._conditions yes) r = false
      /\ Cardlist.keeps str like tags (Cardlist._conditions no) r = false)
  /\ (Cardlist.eval str like tags r c <> None ->
      Cardlist.keeps str like tags (Cardlist._conditions self) r = true ->
      xorb (Cardlist.keeps str like tags (Cardlist._conditions yes) r)
           (Cardlist.keeps str like tags (Cardlist._conditions no) r) = true).
Proof.
  intros F. cbv zeta.
  assert (Calls :
    snd (Cardlist.filter NOW (set_param name (VBool true) (no_predicates true false)) self)
    = Return (Cardlist.View (extended self [c]))
    /\ snd (Cardlist.filter NOW (set_param name (VBool false) (no_predicates true false)) self)
       = Return (Cardlist.View (extended self [Cardlist.Not c]))
    /\ snd (Cardlist.filter NOW (set_param name (VBool false) (no_predicates true true)) self)
       = Return (Cardlist.View (extended self [c]))
    /\ snd (Cardlist.filter NOW (set_param name (VBool true) (no_predicates true true)) self)
       = Return (Cardlist.View (extended self [Cardlist.Not c]))).
  { unfold flag_condition in F.
    destruct (String.eqb name "due") eqn:E1;
      [apply String.eqb_eq in E1; subst name; injection F as <-;
       repeat split; reflexivity|].
    destruct (String.eqb name "deleted") eqn:E2;
      [apply String.eqb_eq in E2; subst name; injection F as <-;
       repeat split; reflexivity|].
    destruct (String.eqb name "new") eqn:E3;
      [apply String.eqb_eq in E3; subst name; injection F as <-;
       repeat split; reflexivity|].
    destruct (String.eqb name "images") eqn:E4;
      [apply String.eqb_eq in E4; subst name; injection F as <-;
       repeat split; reflexivity|].
    destruct (String.eqb name "audio") eqn:E5;
      [apply String.eqb_eq in E5; subst name; injection F as <-;
       repeat split; reflexivity|].
    discriminate F. }
  destruct Calls as (C1 & C2 & C3 & C4).
  split; [exact C1|]. split; [exact C2|]. split; [exact C3|]. split; [exact C4|].
  cbn [extended Cardlist._conditions]. rewrite !keeps_snoc.
  destruct (holds_not_exclusive str like tags r c) as (X & Nl & Ex).
  split; [|split].
  - destruct (Cardlist.keeps str like tags (Cardlist._conditions self) r);
      cbn [andb]; [exact X|reflexivity].
  - intros E. destruct (Nl E) as (-> & ->). now rewrite !andb_false_r.
  - intros E K. rewrite K. cbn [andb]. now apply Ex.
Qed.

Lemma flag_true_false_split_witness :
  let view := Cardlist.__init__ Cardlist.default_conditions
                Cardlist.default_ORDER_BY None in
  snd (Cardlist.filter (100 # 1)
         (set_param "due" (VBool false) (no_predicates true true)) view)
  = Return (Cardlist.View (extended view [due_now (100 # 1)])).
Proof.
  intros view.
  exact (proj1 (proj2 (proj2
    (flag_true_false_split (fun _ => "") (fun _ _ => None) [] (100 # 1) "due"
       (due_now (100 # 1)) view
       {| Cardlist.row_id := 1; Cardlist.row_col := fun _ => VNone |} eq_refl)))).
Defined.

(** ** Tag lists *)





(** ** The bulk visibility change *)

Lemma bulk_change_visibility_unfold str like tags decks
    (self : Cardlist.cardlist) (visibility : string) (date : value)
    (NOW clock : Q) (db db' : database) (n : Z) :
  Cardlist._change_visibility str like tags decks self visibility date NOW clock db
  = (Return n, db') ->
  exists rows,
    Cardlist.matching str like tags decks db (Cardlist.deck self)
      (Cardlist._conditions self ++ [visibility_differs visibility]) = Return rows
    /\ Cardlist._conditions self <> []
    /\ n = Z.of_nat (List.length rows)
    /\ edits db' = edits db ++ map (visibility_event visibility
                                      (if truthy date then date else VFloat NOW)
                                      clock) rows
    /\ media db' = media db.
Proof.
  unfold Cardlist._change_visibility.
  destruct (assert _); [|discriminate].
  destruct (Cardlist._conditions self) as [|c cs] eqn:C; [discriminate|].
  fold (visibility_differs visibility).
  destruct (Cardlist.matching str like tags decks db (Cardlist.deck self) _)
    as [rows|e] eqn:M; [|discriminate].
  intros [= <- <-]. exists rows.
  split; [reflexivity|]. split; [discriminate|]. split; [reflexivity|].
  match goal with
  | |- context [fold_left (fun db r => insert_edit (@?mk r) clock db) rows db] =>
      destruct (fold_insert_edits mk clock rows db) as (E & Md)
  end.
  cbv zeta in E, Md. split; [exact E|exact Md].
Qed.

Lemma bulk_change_visibility_raise str like tags decks
    (self : Cardlist.cardlist) (visibility : string) (date : value)
    (NOW clock : Q) (db : database) (e : exn) :
  fst (Cardlist._change_visibility str like tags decks self visibility date
         NOW clock db) = Raise e ->
  snd (Cardlist._change_visibility str like tags decks self visibility date
         NOW clock db) = db.
Proof.
  unfold Cardlist._change_visibility.
  destruct (assert _); [|reflexivity].
  destruct (Cardlist._conditions self); [reflexivity|].
  destruct (Cardlist.matching _ _ _ _ _ _ _); [discriminate|reflexivity].
Qed.



(** ** The event log only grows *)

Lemma insert_edit_extends (row : dict) (clock : Q) (db : database) :
  extends db (insert_edit row clock db).
Proof.
  split; cbn [insert_edit edits media]; [eexists; reflexivity|].
  exists []. now rewrite app_nil_r.
Qed.

Lemma extends_refl (db : database) : extends db db.
Proof. split; exists []; now rewrite app_nil_r. Qed.

Lemma extends_trans (a b c : database) : extends a b -> extends b c -> extends a c.
Proof.
  intros ((x & Ex) & (y & Ey)) ((x' & Ex') & (y' & Ey')). split.
  - exists (x ++ x'). now rewrite Ex', Ex, app_assoc.
  - exists (y ++ y'). now rewrite Ey', Ey, app_assoc.
Qed.

Lemma upload_extends (c : value) (db : database) :
  extends db (snd (Card._upload_media c db)).
Proof.
  destruct (upload_media_extends c db) as (E & M). split; [|exact M].
  exists []. now rewrite app_nil_r.
Qed.

(** X19.  No operation rewrites or removes a stored row: after an upload, an
    assignment, an [_update] or a visibility change (single or bulk), whether
    it succeeded or raised, the [edits] and [media] tables hold their earlier
    rows first, in place and unchanged, followed by what the operation
    appended. *)
Theorem stores_only_grow str like tags decks (columns : list string)
    (self : Card.card) (view : Cardlist.cardlist) (key visibility : string)
    (v date seconds : value) (d : dict) (NOW clock : Q) (db : database) :
  extends db (snd (Card._upload_media v db))
  /\ extends db (snd (Card.__setitem__ columns self key v clock db))
  /\ extends db (snd (Card._update self d date seconds clock db))
  /\ extends db (snd (Card._change_visibility self visibility date clock db))
  /\ extends db (snd (Cardlist._change_visibility str like tags decks view
                        visibility date NOW clock db)).
Proof.
  split; [apply upload_extends|]. split; [|split; [|split]].
  - unfold Card.__setitem__.
    destruct (assert (negb _)); [|apply extends_refl].
    destruct (assert (mem key Card._fields)); [|apply extends_refl].
    unfold Card._set_virtual_media_field, Card.insert_edit_checked.
    destruct (mem key Card._virtual_media_fields).
    + pose proof (upload_extends v db) as U.
      destruct (Card._upload_media v db) as [i db1]. cbn [snd] in U.
      destruct (forallb _ _); cbn [snd]; [|exact U].
      eapply extends_trans; [exact U|apply insert_edit_extends].
    + destruct (forallb _ _); cbn [snd];
        [apply insert_edit_extends|apply extends_refl].
  - unfold Card._update. destruct (assert _); [|apply extends_refl].
    destruct (keys d); [apply extends_refl|]. apply insert_edit_extends.
  - unfold Card._change_visibility. destruct (assert _); [|apply extends_refl].
    destruct (truthy date); [apply insert_edit_extends|apply extends_refl].
  - destruct (Cardlist._change_visibility str like tags decks view visibility
                date NOW clock db) as [[n|e] db'] eqn:R; cbn [snd].
    + destruct (bulk_change_visibility_unfold str like tags decks view visibility
                  date NOW clock db db' n R) as (rows & _ & _ & _ & E & M).
      split; [eexists; exact E|]. exists []. now rewrite app_nil_r.
    + pose proof (bulk_change_visibility_raise str like tags decks view
                    visibility date NOW clock db e) as H.
      rewrite R in H. cbn [fst snd] in H. rewrite (H eq_refl).
      apply extends_refl.
Qed.

(** ** Repeating the bulk visibility change *)

Lemma of_card_iff (id : Z) (e : edit) :
  of_card id e = true <-> edit_card_id e = Some id.
Proof.
  unfold of_card. destruct (edit_card_id e) as [i|].
  - rewrite Z.eqb_eq. split; [now intros ->|now intros [= ->]].
  - split; discriminate.
Qed.

Lemma card_ids_In (es : list edit) (i : Z) :
  In i (Cardlist.card_ids es) <-> exists e, In e es /\ edit_card_id e = Some i.
Proof.
  unfold Cardlist.card_ids. rewrite nodup_In, in_flat_map. split.
  - intros (e & I & H). exists e. split; [exact I|].
    destruct (edit_card_id e) as [j|]; [|contradiction].
    destruct H as [->|[]]. reflexivity.
  - intros (e & I & H). exists e. split; [exact I|]. rewrite H. now left.
Qed.

Lemma latest_from_unreferenced (id : Z) (attr : string) (added : list edit) :
  forall best,
    (forall e, In e added -> references id attr e = false) ->
    latest_from best id attr added = best.
Proof.
  induction added as [|e added IH]; intros best H; cbn [latest_from];
    [reflexivity|].
  rewrite (H e) by now left. apply IH. intros e' I. apply H. now right.
Qed.

Lemma queryLatest_app_other (es added : list edit) (id : Z) (attr : string) :
  (forall e, In e added -> of_card id e = false) ->
  queryLatest (es ++ added) id attr = queryLatest es id attr.
Proof.
  intros H. unfold queryLatest. rewrite latest_from_app.
  rewrite latest_from_unreferenced; [reflexivity|].
  intros e I. unfold references. now rewrite (H e I).
Qed.

Lemma queryLatest_app_new (es added : list edit) (id : Z) (attr : string)
    (x : value) (q : Q) :
  is_null x = false ->
  (forall e, In e es -> Qle (edit_date e) q) ->
  (forall e, In e added -> edit_column attr e = x /\ edit_date e = q) ->
  (exists e, In e added /\ of_card id e = true) ->
  queryLatest (es ++ added) id attr = x.
Proof.
  intros Nx Le. induction added as [|e added IH] using rev_ind;
    intros All (e0 & I0 & O0); [contradiction|].
  rewrite app_assoc.
  assert (Ae : edit_column attr e = x /\ edit_date e = q)
    by (apply All, in_or_app; right; now left).
  destruct Ae as (Ve & De).
  destruct (of_card id e) eqn:O.
  - rewrite queryLatest_snoc; [exact Ve| |].
    + unfold references. now rewrite O, Ve, Nx.
    + intros e' I _. rewrite De. apply in_app_or in I as [I|I].
      * now apply Le.
      * destruct (All e') as (_ & ->); [apply in_or_app; now left|].
        apply Qle_refl.
  - rewrite queryLatest_snoc_other by (unfold references; now rewrite O).
    apply IH.
    + intros e' I. apply All, in_or_app. now left.
    + apply in_app_or in I0 as [I0|[<-|[]]]; [now exists e0|congruence].
Qed.

Lemma eval_ext str like tags (r r' : Cardlist.row) (c : Cardlist.sql) :
  Cardlist.row_id r = Cardlist.row_id r' ->
  (forall name, Cardlist.column r name = Cardlist.column r' name) ->
  Cardlist.eval str like tags r c = Cardlist.eval str like tags r' c.
Proof.
  intros Hi Hc. induction c; cbn [Cardlist.eval].
  - assert (O : forall o, Cardlist.operand_value str r o
                          = Cardlist.operand_value str r' o)
      by (intros [n|v|v]; cbn; auto).
    now rewrite !O.
  - now rewrite Hc.
  - now rewrite Hc.
  - unfold Cardlist.count_tags. now rewrite Hi.
  - unfold Cardlist.count_tags. now rewrite Hi.
  - unfold Cardlist.count_tags. now rewrite Hi.
  - now rewrite IHc1, IHc2.
  - now rewrite IHc.
Qed.

Lemma keeps_ext str like tags (r r' : Cardlist.row) (cs : list Cardlist.sql) :
  Cardlist.row_id r = Cardlist.row_id r' ->
  (forall name, Cardlist.column r name = Cardlist.column r' name) ->
  Cardlist.keeps str like tags cs r = Cardlist.keeps str like tags cs r'.
Proof.
  intros Hi Hc. rewrite !keeps_forallb.
  induction cs as [|c cs IH]; [reflexivity|]. cbn [forallb]. rewrite IH.
  unfold holds. now rewrite (eval_ext str like tags r r' c Hi Hc).
Qed.

Lemma filter_nil_iff {A : Type} (f : A -> bool) (l : list A) :
  (forall x, In x l -> f x = false) -> filter f l = [].
Proof.
  induction l as [|x l IH]; intros H; [reflexivity|]. cbn.
  rewrite (H x) by now left. apply IH. intros y I. apply H. now right.
Qed.

Lemma as_num_bound (v : value) : as_num (bound v) = as_num v.
Proof. induction v; cbn; auto. Qed.

Lemma matching_cards str like tags decks (db : database) (cs : list Cardlist.sql) :
  cs <> [] ->
  Cardlist.matching str like tags decks db "cards" cs
  = Return (filter (Cardlist.keeps str like tags cs) (Cardlist.cards_view (edits db))).
Proof. intros N. destruct cs; [now elim N|reflexivity]. Qed.

Lemma bulk_change_visibility_run str like tags decks
    (self : Cardlist.cardlist) (visibility : string) (date : value)
    (NOW clock : Q) (db : database) :
  mem visibility ["visible"; "deleted"; "purged"] = true ->
  Cardlist._conditions self <> [] ->
  Cardlist._change_visibility str like tags decks self visibility date NOW clock db
  = match Cardlist.matching str like tags decks db (Cardlist.deck self)
            (Cardlist._conditions self ++ [visibility_differs visibility]) with
    | Return rows =>
        (Return (Z.of_nat (List.length rows)),
         fold_left
           (fun db r =>
              insert_edit [("card_id", VInt (Cardlist.row_id r));
                           ("visibility", VStr visibility);
                           ("date", if truthy date then date else VFloat NOW)]
                clock db)
           rows db)
    | Raise e => (Raise e, db)
    end.
Proof.
  intros K N. unfold Cardlist._change_visibility. rewrite K. cbn [assert].
  destruct (Cardlist._conditions self); [now elim N|reflexivity].
Qed.

(** X20.  The bulk visibility change is idempotent.  On a view of the base
    collection, once a change to a state has been recorded at a date that is
    not before any event already in the log, repeating the change (at any
    date) selects no card: it returns 0 and appends nothing. *)
Theorem bulk_change_visibility_idempotent str like tags decks
    (self : Cardlist.cardlist) (visibility : string) (date date' : value)
    (NOW NOW' clock clock' q : Q) (db db1 : database) (n : Z) :
  Cardlist.deck self = "cards" ->
  Cardlist._change_visibility str like tags decks self visibility date NOW clock db
  = (Return n, db1) ->
  as_num (if truthy date then date else VFloat NOW) = Some q ->
  (forall e, In e (edits db) -> Qle (edit_date e) q) ->
  Cardlist._change_visibility str like tags decks self visibility date' NOW' clock' db1
  = (Return 0, db1).
Proof.
  intros D H A Le.
  assert (K : mem visibility ["visible"; "deleted"; "purged"] = true).
  { unfold Cardlist._change_visibility in H.
    destruct (mem visibility _); [reflexivity|discriminate H]. }
  destruct (bulk_change_visibility_unfold str like tags decks self visibility
              date NOW clock db db1 n H) as (rows & M & Nc & _ & E & _).
  set (dv := if truthy date then date else VFloat NOW) in *.
  set (conds := Cardlist._conditions self ++ [visibility_differs visibility]) in *.
  assert (Cn : conds <> []).
  { unfold conds. destruct (Cardlist._conditions self); discriminate. }
  assert (R : rows = filter (Cardlist.keeps str like tags conds)
                       (Cardlist.cards_view (edits db))).
  { rewrite D, (matching_cards str like tags decks db conds Cn) in M.
    now injection M as <-. }
  set (added := map (visibility_event visibility dv clock) rows) in *.
  assert (Ev : forall e, In e added ->
                 edit_column "visibility" e = VStr visibility /\ edit_date e = q).
  { intros e I. apply in_map_iff in I as (r & <- & _). split; [reflexivity|].
    unfold edit_date, edit_column. cbn. now rewrite as_num_bound, A. }
  assert (Sel : forall i, In i (map Cardlist.row_id rows) <->
                          exists e, In e added /\ of_card i e = true).
  { intros i. split.
    - intros I. apply in_map_iff in I as (r & <- & I).
      exists (visibility_event visibility dv clock r).
      split; [now apply in_map|]. apply of_card_iff. reflexivity.
    - intros (e & I & O). apply in_map_iff in I as (r & <- & I).
      apply of_card_iff in O. cbn in O. injection O as <-. now apply in_map. }
  assert (Empty : filter (Cardlist.keeps str like tags conds)
                    (Cardlist.cards_view (edits db1)) = []).
  { apply filter_nil_iff. intros r I.
    unfold Cardlist.cards_view in I. apply in_map_iff in I as (i & <- & I).
    rewrite E in *. fold added in I |- *.
    destruct (in_dec Z.eq_dec i (map Cardlist.row_id rows)) as [S|S].
    - unfold conds. rewrite keeps_snoc.
      assert (V : Cardlist.column (Cardlist.cards_row (edits db ++ added) i)
                    "visibility" = VStr visibility).
      { cbn. apply (queryLatest_app_new _ _ _ _ _ q); try assumption;
          [reflexivity|now apply Sel]. }
      unfold holds, visibility_differs. cbn [Cardlist.eval Cardlist.operand_value].
      rewrite V. unfold sql_cmp. cbn [storage_of storage_compare].
      rewrite string_compare_refl. apply andb_false_r.
    - assert (No : forall e, In e added -> of_card i e = false).
      { intros e Ie. destruct (of_card i e) eqn:O; [|reflexivity].
        elim S. apply Sel. now exists e. }
      rewrite (keeps_ext str like tags _ (Cardlist.cards_row (edits db) i));
        [|reflexivity|].
      + destruct (Cardlist.keeps str like tags conds
                    (Cardlist.cards_row (edits db) i)) eqn:Kp; [|reflexivity].
        elim S. apply in_map_iff. exists (Cardlist.cards_row (edits db) i).
        split; [reflexivity|]. rewrite R. apply filter_In. split; [|exact Kp].
        apply in_map. apply card_ids_In. apply card_ids_In in I as (e & Ie & Ce).
        exists e. split; [|exact Ce]. apply in_app_or in Ie as [Ie|Ie]; [exact Ie|].
        apply of_card_iff in Ce. rewrite (No e Ie) in Ce. discriminate Ce.
      + intros name. unfold Cardlist.column. cbn [Cardlist.cards_row
          Cardlist.row_id Cardlist.row_col].
        destruct (String.eqb name "id"); [reflexivity|].
        now apply queryLatest_app_other. }
  rewrite (bulk_change_visibility_run str like tags decks self visibility date'
             NOW' clock' db1 K Nc).
  change (Cardlist._conditions self ++ [visibility_differs visibility]) with conds.
  rewrite D, (matching_cards str like tags decks db1 conds Cn), Empty.
  reflexivity.
Qed.

Lemma bulk_change_visibility_idempotent_witness :
  let db := {| edits := [ {| e_row := [("card_id", VInt 1); ("visibility", VStr "visible")];
                             e_clock := 1 # 1 |} ];
               media := [] |} in
  let view := Cardlist.__init__ Cardlist.default_conditions
                Cardlist.default_ORDER_BY None in
  let run := Cardlist._change_visibility (fun _ => "") (fun _ _ => None) []
               (fun _ => None) view "deleted" VNone in
  let once := run (5 # 1)%Q (5 # 1)%Q db in
  fst once = Return 1
  /\ run (6 # 1)%Q (6 # 1)%Q (snd once) = (Return 0, snd once).
Proof.
  intros db view run once. split; [reflexivity|].
  refine (bulk_change_visibility_idempotent (fun _ => "") (fun _ _ => None) []
            (fun _ => None) view "deleted" VNone VNone (5 # 1) (6 # 1)
            (5 # 1) (6 # 1) (5 # 1) db (snd once) 1 eq_refl eq_refl eq_refl _).
  intros e [<-|[]]. cbv. discriminate.
Defined.

(** ** Date bounds are monotone *)

Lemma days_before_year_succ (y : Z) :
  Datetime._days_before_year (y + 1)
  = Datetime._days_before_year y + 365 + (if Datetime._is_leap y then 1 else 0).
Proof.
  unfold Datetime._days_before_year, Datetime._is_leap. cbv zeta.
  replace (y + 1 - 1) with y by lia.
  pose proof (div_step_4 y) as S4. pose proof (div_step_100 y) as S100.
  pose proof (div_step_400 y) as S400.
  pose proof (mod_400_100 y) as M1. pose proof (mod_100_4 y) as M2.
  destruct (y mod 4 =? 0) eqn:E4; destruct (y mod 100 =? 0) eqn:E100;
    destruct (y mod 400 =? 0) eqn:E400; cbn [negb orb andb];
    rewrite ?Z.eqb_eq, ?Z.eqb_neq in *; lia.
Qed.

Lemma days_before_year_mono (y y' : Z) :
  y <= y' -> Datetime._days_before_year y <= Datetime._days_before_year y'.
Proof.
  intros H. replace y' with (y + Z.of_nat (Z.to_nat (y' - y))) by lia.
  induction (Z.to_nat (y' - y)) as [|k IH].
  - replace (y + Z.of_nat 0) with y by lia. lia.
  - replace (y + Z.of_nat (S k)) with (y + Z.of_nat k + 1) by lia.
    rewrite days_before_year_succ.
    destruct (Datetime._is_leap (y + Z.of_nat k)); lia.
Qed.

Lemma month_cases (m : Z) :
  1 <= m <= 12 ->
  m = 1 \/ m = 2 \/ m = 3 \/ m = 4 \/ m = 5 \/ m = 6 \/ m = 7 \/ m = 8 \/ m = 9
  \/ m = 10 \/ m = 11 \/ m = 12.
Proof. lia. Qed.

(** The days of a year before month [m] and in it end before month [m']
    starts, for [m < m']. *)
Lemma days_before_month_mono (y m m' : Z) :
  1 <= m -> m < m' -> m' <= 12 ->
  Datetime._days_before_month y m + Datetime._days_in_month y m
  <= Datetime._days_before_month y m'.
Proof.
  intros Hm H Hm'.
  assert (C : 1 <= m <= 12) by lia. assert (C' : 1 <= m' <= 12) by lia.
  apply month_cases in C, C'.
  unfold Datetime._days_before_month, Datetime._days_in_month.
  destruct (Datetime._is_leap y);
    repeat (destruct C as [->|C]);
    try subst m;
    repeat (destruct C' as [->|C']);
    try subst m';
    try lia; cbn; lia.
Qed.

Lemma year_days_bound (y m d : Z) :
  Datetime.valid_date y m d = true ->
  1 <= Datetime._days_before_month y m + d
       <= 365 + (if Datetime._is_leap y then 1 else 0).
Proof.
  unfold Datetime.valid_date. intros V.
  repeat (apply andb_true_iff in V as (V & ?)).
  assert (C : 1 <= m <= 12) by lia. apply month_cases in C.
  unfold Datetime._days_before_month, Datetime._days_in_month in *.
  destruct (Datetime._is_leap y);
    repeat (destruct C as [->|C]); try subst m;
    cbn [Datetime._DAYS_BEFORE_MONTH Datetime._DAYS_IN_MONTH Z.eqb Z.ltb
         Z.compare Pos.eqb Pos.compare Pos.compare_cont andb] in *; lia.
Qed.

(** A later calendar date has a greater ordinal. *)
Lemma ymd2ord_mono (y m d y' m' d' : Z) :
  Datetime.valid_date y m d = true ->
  Datetime.valid_date y' m' d' = true ->
  date_before (y, m, d) (y', m', d') ->
  Datetime._ymd2ord y m d < Datetime._ymd2ord y' m' d'.
Proof.
  intros V V' B. unfold Datetime._ymd2ord.
  pose proof (year_days_bound y m d V) as Y.
  pose proof (year_days_bound y' m' d' V') as Y'.
  cbn [date_before] in B. destruct B as [B|(<- & [B|(<- & B)])].
  - pose proof (days_before_year_mono (y + 1) y' ltac:(lia)) as M.
    rewrite days_before_year_succ in M. lia.
  - unfold Datetime.valid_date in V, V'.
    repeat (apply andb_true_iff in V as (V & ?)).
    repeat (apply andb_true_iff in V' as (V' & ?)).
    pose proof (days_before_month_mono y m m' ltac:(lia) B ltac:(lia)). lia.
  - lia.
Qed.

Lemma holds_lt_mono str like tags (r : Cardlist.row) (col : string) (z z' : Z) :
  z <= z' ->
  holds str like tags r (date_condition col Lt z) = true ->
  holds str like tags r (date_condition col Lt z') = true.
Proof.
  intros L. unfold holds, date_condition.
  cbn [Cardlist.eval Cardlist.operand_value].
  intros H.
  assert (T : sql_cmp Lt (Cardlist.column r col) (VInt z) = Some true)
    by (destruct (sql_cmp Lt _ (VInt z)) as [[|]|]; congruence).
  apply (sql_lt_number _ (VInt z) (inject_Z z) eq_refl) in T as (q & A & Q).
  assert (T' : sql_cmp Lt (Cardlist.column r col) (VInt z') = Some true).
  { apply (sql_lt_number _ (VInt z') (inject_Z z') eq_refl). exists q.
    split; [exact A|]. eapply Qlt_le_trans; [exact Q|]. now rewrite <- Zle_Qle. }
  now rewrite T'.
Qed.

(** X21.  A later [due_before] bound keeps every card an earlier one keeps:
    with offsets [d <= d'], and with ISO dates of which the first is not
    after the second, each card of [filter(due_before=...)] for the first
    bound is a card of the view for the second. *)
Theorem due_before_monotone str like tags (NOW : Q) (self : Cardlist.cardlist)
    (x x' : value) (r : Cardlist.row) :
  (exists d d', x = VInt d /\ x' = VInt d' /\ d <= d')
  \/ (exists s s' y m d y' m' d',
        x = VStr s /\ x' = VStr s'
        /\ Datetime.iso_fields s = Some (y, m, d)
        /\ Datetime.iso_fields s' = Some (y', m', d')
        /\ Datetime.valid_date y m d = true
        /\ Datetime.valid_date y' m' d' = true
        /\ (date_before (y, m, d) (y', m', d') \/ (y, m, d) = (y', m', d'))) ->
  exists v v',
    snd (Cardlist.filter NOW (due_before_only x) self) = Return (Cardlist.View v)
    /\ snd (Cardlist.filter NOW (due_before_only x') self) = Return (Cardlist.View v')
    /\ (Cardlist.keeps str like tags (Cardlist._conditions v) r = true ->
        Cardlist.keeps str like tags (Cardlist._conditions v') r = true).
Proof.
  assert (Step : forall z z',
             z <= z' ->
             Cardlist.keeps str like tags
               (Cardlist._conditions (extended self [date_condition "due_date" Lt z])) r
             = true ->
             Cardlist.keeps str like tags
               (Cardlist._conditions (extended self [date_condition "due_date" Lt z'])) r
             = true).
  { intros z z' L. cbn [extended Cardlist._conditions]. rewrite !keeps_snoc.
    rewrite !andb_true_iff. intros (K & H). split; [exact K|].
    now apply (holds_lt_mono str like tags r "due_date" z z' L). }
  intros [(d & d' & -> & -> & L)
         |(s & s' & y & m & d & y' & m' & d' & -> & -> & I & I' & V & V' & B)].
  - exists (extended self [date_condition "due_date" Lt (int_of_float NOW + d)]),
           (extended self [date_condition "due_date" Lt (int_of_float NOW + d')]).
    split; [rewrite filter_unfold; reflexivity|].
    split; [rewrite filter_unfold; reflexivity|].
    apply Step. lia.
  - assert (Ns : forall t a b c, Datetime.iso_fields t = Some (a, b, c) ->
                                 String.eqb t "" = false).
    { intros t a b c H. destruct (String.eqb t "") eqn:E; [|reflexivity].
      apply String.eqb_eq in E. subst t. discriminate H. }
    assert (F : forall t a b c,
               Datetime.iso_fields t = Some (a, b, c) ->
               Datetime.valid_date a b c = true ->
               snd (Cardlist.filter NOW (due_before_only (VStr t)) self)
               = Return (Cardlist.View
                           (extended self
                              [date_condition "due_date" Lt
                                 (Datetime.days_since_epoch a b c)]))).
    { intros t a b c H W. rewrite filter_unfold. cbn [snd]. unfold contribution.
      cbn [due_before_only Cardlist.created_after Cardlist.created_before
           Cardlist.due_after Cardlist.due_before Cardlist.clean_date bind].
      rewrite (Ns t a b c H), H, W. reflexivity. }
    eexists. eexists. split; [exact (F s y m d I V)|].
    split; [exact (F s' y' m' d' I' V')|].
    apply Step. unfold Datetime.days_since_epoch.
    destruct B as [B|B].
    + pose proof (ymd2ord_mono y m d y' m' d' V V' B). lia.
    + injection B as -> -> ->. lia.
Qed.

Lemma due_before_monotone_witness :
  let view := Cardlist.__init__ Cardlist.default_conditions
                Cardlist.default_ORDER_BY None in
  exists v v',
    snd (Cardlist.filter (100 # 1) (due_before_only (VStr "1999-12-31")) view)
    = Return (Cardlist.View v)
    /\ snd (Cardlist.filter (100 # 1) (due_before_only (VStr "2000-03-01")) view)
       = Return (Cardlist.View v')
    /\ Cardlist._conditions v' = Cardlist.default_conditions
                                 ++ [date_condition "due_date" Lt 11017].
Proof.
  intros view.
  destruct (due_before_monotone (fun _ => "") (fun _ _ => None) [] (100 # 1) view
              (VStr "1999-12-31") (VStr "2000-03-01")
              {| Cardlist.row_id := 1; Cardlist.row_col := fun _ => VNone |})
    as (v & v' & E & E' & _).
  { right. exists "1999-12-31", "2000-03-01", 1999, 12, 31, 2000, 3, 1.
    repeat split; try reflexivity. left. cbn. lia. }
  exists v, v'. split; [exact E|]. split; [exact E'|].
  vm_compute in E'. injection E' as <-. reflexivity.
Defined.

(** ** [is_due] and the cache *)

(** X22.  [is_due] on a handle that has not cached [due_date]: for a card
    without a row it raises [TypeError]; for a card whose due date is a
    number it answers whether that number is at most the value of [today()],
    and caches the due date, so that a later call through the same handle
    gives the same answer whatever the database holds by then. *)
Theorem is_due_outcomes (today : value) (self : Card.card) (db : database)
    (q t : Q) :
  dict_get "due_date" (Card._dict self) = None ->
  as_num today = Some t ->
  (Card._exists self db = false ->
   Card.is_due today self db = (Raise TypeError, self))
  /\ (Card._exists self db = true ->
      as_num (queryLatest (edits db) (Card.id self) "due_date") = Some q ->
      fst (Card.is_due today self db) = Return (Qle_bool q t)
      /\ forall later,
          fst (Card.is_due today (snd (Card.is_due today self db)) later)
          = Return (Qle_bool q t)).
Proof.
  intros D T. split.
  - intros E. unfold Card.is_due, Card.__getitem__. rewrite D. cbn [mem negb].
    unfold select_card_column. unfold Card._exists in E. now rewrite E.
  - intros E A. split; [now apply is_due_le|].
    intros later. unfold Card.is_due at 2.
    assert (N : "due_date" <> "id") by discriminate.
    rewrite (proj1 (getitem_latest_edit_cases self "due_date" db eq_refl N E) D).
    cbn [snd]. unfold Card.is_due.
    set (v := as_read "due_date" (queryLatest (edits db) (Card.id self) "due_date")).
    assert (G : Card.__getitem__
                  (Card.set_dict self (dict_set "due_date" v (Card._dict self)))
                  "due_date" later
                = (Return v,
                   Card.set_dict self (dict_set "due_date" v (Card._dict self)))).
    { unfold Card.__getitem__. cbn [Card._dict Card.set_dict].
      now rewrite dict_get_set_same. }
    rewrite G. cbn [fst bind]. unfold py_le, v, as_read.
    cbn [mem existsb String.eqb Ascii.eqb Bool.eqb Card._date_fields orb
         Card.JulianDate as_num].
    now rewrite A, T.
Qed.

Lemma is_due_outcomes_witness :
  let db := {| edits := [ {| e_row := [("card_id", VInt 1); ("due_date", VFloat (90 # 1))];
                             e_clock := 1 # 1 |} ];
               media := [] |} in
  fst (Card.is_due (VFloat (100 # 1)) (Card.__init__ 1) db) = Return true
  /\ Card.is_due (VFloat (100 # 1)) (Card.__init__ 2) db
     = (Raise TypeError, Card.__init__ 2).
Proof.
  intros db. split.
  - exact (proj1 (proj2 (is_due_outcomes (VFloat (100 # 1)) (Card.__init__ 1) db
                           (90 # 1) (100 # 1) eq_refl eq_refl)
                    eq_refl eq_refl)).
  - exact (proj1 (is_due_outcomes (VFloat (100 # 1)) (Card.__init__ 2) db
                    (0 # 1) (100 # 1) eq_refl eq_refl) eq_refl).
Defined.
